(** * news_summarizer_agent: the per-domain article pipeline

    A shallow embedding of the Python sources

      - [utils/json_utils.py]   ([extract_json_block], [safe_json_loads])
      - [utils/dedup.py]        ([deduplicate_articles])
      - [agents/finance_agent.py], [agents/sports_agent.py],
        [agents/tech_agent.py]  (query generation, fetching, merging,
                                 ranking, classification, selection)

    Python values that the code handles are embedded as follows.

      - [str] is [string]; the character-level functions ([strip],
        [upper], the regular expressions) are written for ASCII text.
      - a value that is either [None] or a [str] is a [pyval];
      - a [dict] whose keys vary (a NewsAPI record, a feedparser entry, a
        tech-agent article) is an association list [dict]; the dict literal
        built by [normalize_article] is the record [Article];
      - an exception is the [Raise] branch of [outcome]; computations that
        call the language model additionally log their calls ([M]);
      - the external collaborators (language model, [json.loads], NewsAPI,
        feedparser, [dateutil.parser.parse], the stock lookup) and the
        completion order of the thread pool are fields of a [World]. *)

From Stdlib Require Import List String Ascii Bool Arith ZArith NArith Lia.
From Stdlib Require Import Permutation Sorted DecimalString.
Import ListNotations.

Set Warnings "-register-all".
Open Scope string_scope.
Open Scope list_scope.

(* ------------------------------------------------------------------ *)
(** * Python values, exceptions, dictionaries *)
(* ------------------------------------------------------------------ *)

Inductive pyval : Type :=
| PyNone
| PyStr (s : string).

Definition pyval_eqb (a b : pyval) : bool :=
  match a, b with
  | PyNone, PyNone => true
  | PyStr s, PyStr t => String.eqb s t
  | _, _ => false
  end.

(** Truth value testing: [None] and the empty string are false. *)
Definition truthy (v : pyval) : bool :=
  match v with
  | PyNone => false
  | PyStr s => negb (String.eqb s "")
  end.

(** [a or b] *)
Definition py_or (a b : pyval) : pyval := if truthy a then a else b.

Inductive exn : Type :=
| LLMError            (* llm.invoke failed *)
| JSONDecodeError
| TypeError
| AttributeError
| KeyError
| StockLookupError.

Inductive outcome (A : Type) : Type :=
| Ok (a : A)
| Raise (e : exn).
Arguments Ok {A} a.
Arguments Raise {A} e.

Definition obind {A B} (m : outcome A) (k : A -> outcome B) : outcome B :=
  match m with
  | Ok a => k a
  | Raise e => Raise e
  end.

(** A [dict] with string keys; the first binding of a key is the live one. *)
Definition dict : Type := list (string * pyval).

Fixpoint lookup (d : dict) (k : string) : option pyval :=
  match d with
  | [] => None
  | (k', v) :: d' => if String.eqb k' k then Some v else lookup d' k
  end.

(** [d.get(k, default)] and [d.get(k)] *)
Definition get_default (d : dict) (k : string) (default : pyval) : pyval :=
  match lookup d k with
  | Some v => v
  | None => default
  end.

Definition get (d : dict) (k : string) : pyval := get_default d k PyNone.

(** JSON documents as [json.loads] returns them; of a number the code can
    only observe whether it is zero. *)
Inductive json : Type :=
| JNull
| JBool (b : bool)
| JNum (nonzero : bool)
| JStr (s : string)
| JArr (items : list json)
| JObj (members : list (string * json)).

Definition json_truthy (v : json) : bool :=
  match v with
  | JNull => false
  | JBool b => b
  | JNum nonzero => nonzero
  | JStr s => negb (String.eqb s "")
  | JArr l => match l with [] => false | _ => true end
  | JObj l => match l with [] => false | _ => true end
  end.

Definition is_list (v : json) : bool :=
  match v with JArr _ => true | _ => false end.

Fixpoint chars (s : string) : list json :=
  match s with
  | EmptyString => []
  | String c s' => JStr (String c EmptyString) :: chars s'
  end.

(** [for q in v]: what iterating over a decoded document yields. *)
Definition py_iter (v : json) : outcome (list json) :=
  match v with
  | JArr l => Ok l
  | JObj l => Ok (map (fun kv => JStr (fst kv)) l)
  | JStr s => Ok (chars s)
  | _ => Raise TypeError
  end.

(* ------------------------------------------------------------------ *)
(** * String functions *)
(* ------------------------------------------------------------------ *)

Module Str.

(** ASCII whitespace as [str.strip] sees it: TAB..CR, FS..US and space. *)
Definition is_space (c : ascii) : bool :=
  let n := nat_of_ascii c in
  (((9 <=? n) && (n <=? 13)) || ((28 <=? n) && (n <=? 32)))%nat.

Fixpoint lstrip (s : string) : string :=
  match s with
  | EmptyString => EmptyString
  | String c s' => if is_space c then lstrip s' else s
  end.

Fixpoint rstrip (s : string) : string :=
  match s with
  | EmptyString => EmptyString
  | String c s' =>
      match rstrip s' with
      | EmptyString => if is_space c then EmptyString else String c EmptyString
      | r => String c r
      end
  end.

Definition strip (s : string) : string := rstrip (lstrip s).

Definition upper_char (c : ascii) : ascii :=
  let n := nat_of_ascii c in
  if ((97 <=? n) && (n <=? 122))%nat then ascii_of_nat (n - 32) else c.

Definition lower_char (c : ascii) : ascii :=
  let n := nat_of_ascii c in
  if ((65 <=? n) && (n <=? 90))%nat then ascii_of_nat (n + 32) else c.

Fixpoint map_chars (f : ascii -> ascii) (s : string) : string :=
  match s with
  | EmptyString => EmptyString
  | String c s' => String (f c) (map_chars f s')
  end.

Definition upper : string -> string := map_chars upper_char.
Definition lower : string -> string := map_chars lower_char.

(** [s.startswith(p)] *)
Definition startswith (s p : string) : bool := String.prefix p s.

(** ["\n".join(lines)] *)
Fixpoint join_lines (lines : list string) : string :=
  match lines with
  | [] => EmptyString
  | [l] => l
  | l :: rest => (l ++ String "010"%char (join_lines rest))%string
  end.

(** [str(n)] for a natural number *)
Definition of_nat (n : nat) : string := NilEmpty.string_of_uint (Nat.to_uint n).

End Str.

(* ------------------------------------------------------------------ *)
(** * The two regular expressions *)
(* ------------------------------------------------------------------ *)

Module Re.

(** The longest prefix of [s] that ends in [c]: what a greedy [.*]
    followed by the literal [c] consumes under [re.DOTALL]. *)
Fixpoint upto_last (c : ascii) (s : string) : option string :=
  match s with
  | EmptyString => None
  | String x s' =>
      match upto_last c s' with
      | Some r => Some (String x r)
      | None => if Ascii.eqb x c then Some (String x EmptyString) else None
      end
  end.

(** Match [o .* c] anchored at the head of [s]. *)
Definition delimited_here (o c : ascii) (s : string) : option string :=
  match s with
  | EmptyString => None
  | String x s' =>
      if Ascii.eqb x o then
        match upto_last c s' with
        | Some r => Some (String x r)
        | None => None
        end
      else None
  end.

(** [re.search(r"\[.*\]", s, re.DOTALL)], returning [match.group()]. *)
Fixpoint search_array (s : string) : option string :=
  match delimited_here "["%char "]"%char s with
  | Some m => Some m
  | None =>
      match s with
      | EmptyString => None
      | String _ s' => search_array s'
      end
  end.

(** [re.search(r"(\{.*\}|\[.*\])", s, re.DOTALL)], returning
    [match.group(1)]: at each position the object alternative is tried
    before the array alternative. *)
Fixpoint search_json (s : string) : option string :=
  match delimited_here "{"%char "}"%char s with
  | Some m => Some m
  | None =>
      match delimited_here "["%char "]"%char s with
      | Some m => Some m
      | None =>
          match s with
          | EmptyString => None
          | String _ s' => search_json s'
          end
      end
  end.

Definition fence : string := "```".

Definition at_eol (s : string) : bool :=
  match s with
  | EmptyString => true
  | String c _ => Ascii.eqb c "010"%char
  end.

Definition drop3 (s : string) : string :=
  match s with
  | String _ (String _ (String _ r)) => r
  | _ => EmptyString
  end.

(** Length of the match of [^```(?:json)?|```$] at the head of [s], where
    [bol] tells whether [s] starts a line ([re.MULTILINE]). *)
Definition fence_match (bol : bool) (s : string) : option nat :=
  if String.prefix fence s then
    if bol then
      if String.prefix "json" (drop3 s) then Some 7 else Some 3
    else if at_eol (drop3 s) then Some 3
    else None
  else None.

(** [re.sub(r"^```(?:json)?|```$", "", s, flags=re.MULTILINE)]:
    [skip] counts the characters of the current match still to drop. *)
Fixpoint sub_fences_from (skip : nat) (bol : bool) (s : string) : string :=
  match s with
  | EmptyString => EmptyString
  | String c s' =>
      match skip with
      | S k => sub_fences_from k false s'
      | O =>
          match fence_match bol s with
          | Some n => sub_fences_from (pred n) false s'
          | None => String c (sub_fences_from 0 (Ascii.eqb c "010"%char) s')
          end
      end
  end.

Definition sub_fences (s : string) : string := sub_fences_from 0 true s.

End Re.


(* ------------------------------------------------------------------ *)
(** * External collaborators and logged computations *)
(* ------------------------------------------------------------------ *)

(** [PromptTemplate.format] is kept symbolic: a prompt is the template
    together with the values substituted into it. *)
Inductive prompt : Type :=
| QUERY_PROMPT (params : list string)
| CLASSIFY_PROMPT (params : list string) (title content : pyval)
| SUMMARY_PROMPT (params : list string) (articles : string).

(** [datetime] values: naive ones count microseconds from [datetime.min];
    aware ones are compared through their UTC instant. *)
Inductive datetime : Type :=
| Naive (t : N)
| Aware (utc : Z).

Definition datetime_min : datetime := Naive 0.

(** [a < b] on datetimes: mixing naive and aware operands is a TypeError. *)
Definition datetime_lt (a b : datetime) : outcome bool :=
  match a, b with
  | Naive x, Naive y => Ok (N.ltb x y)
  | Aware x, Aware y => Ok (Z.ltb x y)
  | _, _ => Raise TypeError
  end.

Record World : Type := {
  (** [llm.invoke(prompt).content]; [None] when the call raises *)
  llm_invoke : prompt -> option string;
  (** [json.loads]; [None] when it raises [JSONDecodeError] *)
  json_loads : string -> option json;
  (** [newsapi.get_everything(q, language="en", sort_by, page_size)],
      giving [res.get("articles", [])]; [None] when the call raises *)
  get_everything : json -> option string -> nat -> option (list dict);
  (** [feedparser.parse(url).entries] *)
  feedparser_parse : string -> list dict;
  (** [dateutil.parser.parse]; [None] when it raises *)
  date_parser_parse : pyval -> option datetime;
  (** the outcome of the finance agent's stock price lookup *)
  stock_price : outcome string;
  (** the order in which [as_completed] yields the submitted futures,
      as indices into the submission order *)
  completion_order : list nat
}.

Inductive event : Type :=
| Invoke (p : prompt)      (* one call of the language model *)
| Summarizer.              (* the summarizer function was entered *)

(** A computation returns or raises, and logs the events it performed. *)
Definition M (A : Type) : Type := (list event * outcome A)%type.

Definition ret {A} (a : A) : M A := ([], Ok a).

Definition bind {A B} (m : M A) (k : A -> M B) : M B :=
  match m with
  | (t, Ok a) => let (t', r) := k a in (t ++ t', r)
  | (t, Raise e) => (t, Raise e)
  end.

Definition lift {A} (o : outcome A) : M A := ([], o).

Definition tell (e : event) : M unit := ([e], Ok tt).

(** [try: m  except Exception: h] *)
Definition try_except {A} (m : M A) (h : M A) : M A :=
  match m with
  | (t, Ok a) => (t, Ok a)
  | (t, Raise _) => let (t', r) := h in (t ++ t', r)
  end.

Declare Scope monad_scope.
Delimit Scope monad_scope with monad.
Notation "x <- c ;; k" := (bind c (fun x => k))
  (at level 61, c at next level, right associativity) : monad_scope.
Notation "c ;;; k" := (bind c (fun _ => k))
  (at level 61, right associativity) : monad_scope.
Open Scope monad_scope.

Definition invoke (w : World) (p : prompt) : M string :=
  tell (Invoke p) ;;;
  lift (match llm_invoke w p with
        | Some content => Ok content
        | None => Raise LLMError
        end).

Definition py_json_loads (w : World) (s : string) : outcome json :=
  match json_loads w s with
  | Some v => Ok v
  | None => Raise JSONDecodeError
  end.

Definition trace {A} (m : M A) : list event := fst m.
Definition result {A} (m : M A) : outcome A := snd m.

Definition is_summarizer (e : event) : bool :=
  match e with
  | Summarizer => true
  | Invoke (SUMMARY_PROMPT _ _) => true
  | _ => false
  end.

(** No summarizer activity occurs in a trace. *)
Definition summarizer_free (t : list event) : Prop :=
  Forall (fun e => is_summarizer e = false) t.

(* ------------------------------------------------------------------ *)
(** * Articles and digests *)
(* ------------------------------------------------------------------ *)

(** The dict literal returned by [normalize_article]. *)
Record Article : Type := {
  title : string;
  summary : pyval;
  url : pyval;
  published : pyval;
  source : string
}.

(** [normalize_article(a, source)]: [a.get("title", "").strip()] raises
    AttributeError when the title is present but [None]. *)
Definition normalize_article (a : dict) (src : string) : outcome Article :=
  match get_default a "title" (PyStr "") with
  | PyNone => Raise AttributeError
  | PyStr t =>
      Ok {| title := Str.strip t;
            summary := py_or (get a "summary") (get_default a "description" (PyStr ""));
            url := py_or (get a "url") (get a "link");
            published := py_or (get a "publishedAt") (get a "published");
            source := src |}
  end.

(** What an agent returns: [{}] or a populated dict. *)
Inductive DigestResult (A : Type) : Type :=
| EmptyDigest
| Digest (title : string) (stock_info : option string)
         (summary : string) (articles : list A).
Arguments EmptyDigest {A}.
Arguments Digest {A} title stock_info summary articles.

(** [str(v)] inside an f-string *)
Definition py_str (v : pyval) : string :=
  match v with
  | PyNone => "None"
  | PyStr s => s
  end.

(* ------------------------------------------------------------------ *)
(** * Built-in containers and the thread pool *)
(* ------------------------------------------------------------------ *)

Section Builtins.
Context {A : Type}.

(** An insertion-ordered [dict] keyed by url values. *)
Definition odict : Type := list (pyval * A).

(** [m[k] = v]: an existing key keeps its position and takes the new
    value, a new key is appended. *)
Fixpoint setitem (k : pyval) (v : A) (m : odict) : odict :=
  match m with
  | [] => [(k, v)]
  | (k', v') :: m' =>
      if pyval_eqb k' k then (k, v) :: m' else (k', v') :: setitem k v m'
  end.

Definition values (m : odict) : list A := map snd m.

(** [x in seen] for a set of url values *)
Definition mem (x : pyval) (seen : list pyval) : bool :=
  existsb (pyval_eqb x) seen.

(** [list.sort(key=..., reverse=True)] on precomputed keys.  The sort is
    stable and compares keys with [<] only; a comparison that raises
    aborts the sort.  It is written here as an insertion sort: [x], which
    precedes every element of [l] in the input, is placed before the
    first element whose key is not greater than its own. *)
Fixpoint insert_desc (kx : datetime) (x : A) (l : list (datetime * A))
  : outcome (list (datetime * A)) :=
  match l with
  | [] => Ok [(kx, x)]
  | (ky, y) :: l' =>
      obind (datetime_lt kx ky) (fun lt =>
        if lt then obind (insert_desc kx x l') (fun r => Ok ((ky, y) :: r))
        else Ok ((kx, x) :: (ky, y) :: l'))
  end.

Fixpoint sort_keyed_desc (l : list (datetime * A)) : outcome (list (datetime * A)) :=
  match l with
  | [] => Ok []
  | (kx, x) :: l' => obind (sort_keyed_desc l') (insert_desc kx x)
  end.

Definition sort_desc (key : A -> datetime) (l : list A) : outcome (list A) :=
  obind (sort_keyed_desc (map (fun x => (key x, x)) l))
        (fun r => Ok (map snd r)).

(** The loop
<<
    for f in as_completed(futures):
        if f.result():
            relevant.append(futures[f])
>>
    where future [i] belongs to [articles[i]] and holds [results[i]];
    [order] lists the futures as they complete. *)
Fixpoint collect_completed (articles : list A) (results : list (outcome bool))
         (order : list nat) (relevant : list A) : outcome (list A) :=
  match order with
  | [] => Ok relevant
  | i :: rest =>
      match nth_error results i, nth_error articles i with
      | Some (Raise e), Some _ => Raise e
      | Some (Ok true), Some a =>
          collect_completed articles results rest (relevant ++ [a])
      | _, _ => collect_completed articles results rest relevant
      end
  end.

(** The whole [with ThreadPoolExecutor(...)] block: every article is
    submitted, every call runs (their events are logged in submission
    order), and the results are consumed in completion order. *)
Definition classify_parallel (w : World) (classify : A -> M bool)
           (articles : list A) : M (list A) :=
  let futures := map classify articles in
  (List.concat (map fst futures),
   collect_completed articles (map snd futures) (completion_order w) []).

End Builtins.
Arguments odict A : clear implicits.

(** A completion order is a rearrangement of the submitted futures. *)
Definition valid_order (n : nat) (order : list nat) : Prop :=
  Permutation order (seq 0 n).

(** [enumerate(l)] *)
Fixpoint enumerate_from {A} (i : nat) (l : list A) : list (nat * A) :=
  match l with
  | [] => []
  | x :: l' => (i, x) :: enumerate_from (S i) l'
  end.

(* ------------------------------------------------------------------ *)
(** * utils/json_utils.py *)
(* ------------------------------------------------------------------ *)

Module JsonUtils.

(** [extract_json_block(text)]; [text] may be [None]. *)
Definition extract_json_block (text : pyval) : option string :=
  match text with
  | PyNone => None
  | PyStr t =>
      if String.eqb t "" then None
      else
        let t1 := Str.strip t in
        let t2 := Str.strip (Re.sub_fences t1) in
        Re.search_json t2
  end.


End JsonUtils.

(* ------------------------------------------------------------------ *)
(** * utils/dedup.py *)
(* ------------------------------------------------------------------ *)

Module Dedup.

Fixpoint dedup_loop (key : string) (articles : list dict)
         (seen : list pyval) (unique : list dict) : list dict :=
  match articles with
  | [] => unique
  | article :: rest =>
      let value := get article key in
      if negb (truthy value) then dedup_loop key rest seen unique
      else if negb (mem value seen)
           then dedup_loop key rest (value :: seen) (unique ++ [article])
           else dedup_loop key rest seen unique
  end.

Definition deduplicate_articles (articles : list dict) (key : string) : list dict :=
  dedup_loop key articles [] [].

End Dedup.

(* ------------------------------------------------------------------ *)
(** * Code shared verbatim by finance_agent.py and sports_agent.py *)
(* ------------------------------------------------------------------ *)

(** The three agent modules use the same bounds. *)
Definition MAX_NEWSAPI : nat := 10.
Definition MAX_RSS : nat := 10.
Definition FINAL_ARTICLES : nat := 5.
Definition MAX_LLM_WORKERS : nat := 5.

Definition NL : string := String "010"%char EmptyString.

(** [parse_date_safe(date_str)] *)
Definition parse_date_safe (w : World) (date_str : pyval) : datetime :=
  match date_parser_parse w date_str with
  | Some d => d
  | None => datetime_min
  end.

(** The inner loop of [fetch_newsapi_articles], inside its [try]: an
    exception stops the loop and keeps what was appended so far. *)
Fixpoint append_normalized (raw : list dict) (articles : list Article) : list Article :=
  match raw with
  | [] => articles
  | a :: rest =>
      match normalize_article a "newsapi" with
      | Ok n => append_normalized rest (articles ++ [n])
      | Raise _ => articles
      end
  end.

(** One iteration of [for q in queries]. *)
Definition newsapi_query (w : World) (articles : list Article) (q : json) : list Article :=
  match get_everything w q (Some "publishedAt") MAX_NEWSAPI with
  | Some raw => append_normalized raw articles
  | None => articles
  end.

Definition fetch_newsapi_articles (w : World) (queries : json) : outcome (list Article) :=
  obind (py_iter queries) (fun qs =>
    let articles := fold_left (newsapi_query w) qs [] in
    Ok (firstn MAX_NEWSAPI articles)).

(** The dict literal built from a feedparser entry. *)
Definition rss_entry (entry : dict) : dict :=
  [ ("title", get entry "title"); ("summary", get entry "summary");
    ("link", get entry "link"); ("published", get entry "published") ].

(** [for entry in feed.entries[:MAX_RSS]: articles.append(normalize_article(...))];
    no [try] surrounds it. *)
Fixpoint append_rss (entries : list dict) (articles : list Article) : outcome (list Article) :=
  match entries with
  | [] => Ok articles
  | entry :: rest =>
      obind (normalize_article (rss_entry entry) "rss") (fun n =>
        append_rss rest (articles ++ [n]))
  end.

(** Combine + dedupe:
<<
      combined = {}
      for a in newsapi_articles + rss_articles:
          if a["url"]:
              combined[a["url"]] = a
      articles = list(combined.values())
>> *)
Definition combine_step (combined : odict Article) (a : Article) : odict Article :=
  if truthy (url a) then setitem (url a) a combined else combined.

Definition combine_dedupe (l : list Article) : list Article :=
  values (fold_left combine_step l []).

(** [articles.sort(key=lambda x: parse_date_safe(x.get("published")), reverse=True)] *)
Definition sort_by_recency (w : World) (articles : list Article) : outcome (list Article) :=
  sort_desc (fun x => parse_date_safe w (published x)) articles.

(** The numbered title list handed to the summary prompt. *)
Definition numbered_titles (articles : list Article) : string :=
  Str.join_lines
    (map (fun ia => (Str.of_nat (fst ia + 1) ++ ". " ++ title (snd ia))%string)
         (enumerate_from 0 articles)).

(* ------------------------------------------------------------------ *)
(** * agents/finance_agent.py *)
(* ------------------------------------------------------------------ *)

Module Finance.

Definition SECTOR : string := "Technology".
Definition STOCK : string := "Infosys".
Definition FINANCE_RSS_FEED : string :=
  "https://www.moneycontrol.com/rss/latestnews.xml".

Definition fetch_rss_articles (w : World) : outcome (list Article) :=
  append_rss (firstn MAX_RSS (feedparser_parse w FINANCE_RSS_FEED)) [].

Definition summarize_articles (w : World) (articles : list Article) : M string :=
  tell Summarizer ;;;
  let text := numbered_titles articles in
  try_except
    (content <- invoke w (SUMMARY_PROMPT [SECTOR; STOCK] text) ;;
     ret (Str.strip content))
    (ret "Summary unavailable").

(** Lines 229-235 of [run_finance_agent]: the query generation. *)
Definition generate_queries (w : World) : M json :=
  llm_raw <- invoke w (QUERY_PROMPT [SECTOR; STOCK]) ;;
  lift (match Re.search_array llm_raw with
        | Some m => py_json_loads w m
        | None => Ok (JArr [JStr (STOCK ++ " stock news")%string])
        end).

(** [run_finance_agent] up to [final_articles = articles[:FINAL_ARTICLES]]. *)
Definition final_articles (w : World) : M (list Article) :=
  queries <- generate_queries w ;;
  newsapi_articles <- lift (fetch_newsapi_articles w queries) ;;
  rss_articles <- lift (fetch_rss_articles w) ;;
  let articles := combine_dedupe (newsapi_articles ++ rss_articles) in
  articles <- lift (sort_by_recency w articles) ;;
  ret (firstn FINAL_ARTICLES articles).

Definition run_finance_agent (w : World) : M (DigestResult Article) :=
  final <- final_articles w ;;
  match final with
  | [] => ret EmptyDigest
  | _ =>
      stock_info <- lift (stock_price w) ;;
      s <- summarize_articles w final ;;
      ret (Digest "Finance News" (Some stock_info) s final)
  end.

End Finance.

(* ------------------------------------------------------------------ *)
(** * agents/sports_agent.py *)
(* ------------------------------------------------------------------ *)

Module Sports.

Definition TEAM : string := "Australia".
Definition SPORT : string := "Cricket".

Definition CRICKET_RSS : list string :=
  [ "https://www.espncricinfo.com/rss/content/story/feeds/0.xml" ].
Definition FOOTBALL_RSS : list string :=
  [ "https://www.espn.com/espn/rss/soccer/news";
    "https://www.goal.com/feeds/news" ].

Definition get_rss_feeds_for (sport : string) : list string :=
  if String.eqb (Str.lower sport) "cricket" then CRICKET_RSS
  else if String.eqb (Str.lower sport) "football" then FOOTBALL_RSS
  else [].

Definition get_rss_feeds : list string := get_rss_feeds_for SPORT.

Definition fallback : json := JArr [JStr (TEAM ++ " " ++ SPORT ++ " news")%string].

(** [llm.invoke] sits outside the [try]; only [json.loads] is guarded. *)
Definition generate_queries (w : World) : M json :=
  content <- invoke w (QUERY_PROMPT [TEAM; SPORT]) ;;
  match Re.search_array content with
  | Some m =>
      match py_json_loads w m with
      | Ok queries => if json_truthy queries then ret queries else ret fallback
      | Raise _ => ret fallback
      end
  | None => ret fallback
  end.

(** The loop of [fetch_rss_articles] over an arbitrary feed list. *)
Fixpoint fetch_rss_from (w : World) (feeds : list string) (articles : list Article)
  : outcome (list Article) :=
  match feeds with
  | [] => Ok articles
  | feed_url :: rest =>
      obind (append_rss (firstn MAX_RSS (feedparser_parse w feed_url)) articles)
            (fetch_rss_from w rest)
  end.

Definition fetch_rss_articles (w : World) : outcome (list Article) :=
  fetch_rss_from w get_rss_feeds [].

(** No [try]: a failing model call propagates. *)
Definition classify_article (w : World) (article : Article) : M bool :=
  content <- invoke w (CLASSIFY_PROMPT [TEAM; SPORT]
                         (PyStr (title article)) (summary article)) ;;
  ret (Str.startswith (Str.upper (Str.strip content)) "YES").

Definition summarize_articles (w : World) (articles : list Article) : M string :=
  tell Summarizer ;;;
  let content := numbered_titles articles in
  res <- invoke w (SUMMARY_PROMPT [TEAM; SPORT] content) ;;
  ret (Str.strip res).

(** [run_sports_agent] up to [final_articles = relevant[:FINAL_ARTICLES]]. *)
Definition final_articles (w : World) : M (list Article) :=
  queries <- generate_queries w ;;
  newsapi_articles <- lift (fetch_newsapi_articles w queries) ;;
  rss_articles <- lift (fetch_rss_articles w) ;;
  let articles := combine_dedupe (newsapi_articles ++ rss_articles) in
  articles <- lift (sort_by_recency w articles) ;;
  relevant <- classify_parallel w (classify_article w) articles ;;
  ret (firstn FINAL_ARTICLES relevant).

Definition run_sports_agent (w : World) : M (DigestResult Article) :=
  final <- final_articles w ;;
  match final with
  | [] => ret EmptyDigest
  | _ =>
      s <- summarize_articles w final ;;
      ret (Digest "Sports News" None s final)
  end.

End Sports.

(* ------------------------------------------------------------------ *)
(** * agents/tech_agent.py *)
(* ------------------------------------------------------------------ *)

Module Tech.

Definition TECH : string := "Artificial Intelligence".
Definition TECH_RSS_FEED : string := "https://www.wired.com/feed/rss".

Definition fallback : json := JArr [JStr (TECH ++ " news")%string].

(** The whole body is inside [try ... except Exception]. *)
Definition generate_queries (w : World) : M json :=
  found <- try_except
             (res <- invoke w (QUERY_PROMPT [TECH]) ;;
              match Re.search_array res with
              | Some m =>
                  queries <- lift (py_json_loads w m) ;;
                  if is_list queries && json_truthy queries
                  then ret (Some queries) else ret None
              | None => ret None
              end)
             (ret None) ;;
  match found with
  | Some queries => ret queries
  | None => ret fallback
  end.

(** Raw NewsAPI records are kept as they are. *)
Definition newsapi_query (w : World) (articles : list dict) (q : json) : list dict :=
  match get_everything w q None MAX_NEWSAPI with
  | Some raw => articles ++ raw
  | None => articles
  end.

Definition fetch_newsapi_articles (w : World) (queries : json) : outcome (list dict) :=
  obind (py_iter queries) (fun qs =>
    let articles := fold_left (newsapi_query w) qs [] in
    Ok (firstn MAX_NEWSAPI articles)).

Definition rss_article (entry : dict) : dict :=
  [ ("title", get_default entry "title" (PyStr ""));
    ("summary", get_default entry "summary" (PyStr ""));
    ("url", get_default entry "link" (PyStr "")) ].

Definition fetch_rss_articles (w : World) : list dict :=
  fold_left (fun articles entry => articles ++ [rss_article entry])
            (firstn MAX_RSS (feedparser_parse w TECH_RSS_FEED)) [].

Fixpoint deduplicate_loop (articles : list dict) (seen : list pyval)
         (unique : list dict) : list dict :=
  match articles with
  | [] => unique
  | a :: rest =>
      let url := get a "url" in
      if truthy url && negb (mem url seen)
      then deduplicate_loop rest (url :: seen) (unique ++ [a])
      else deduplicate_loop rest seen unique
  end.

Definition deduplicate (articles : list dict) : list dict :=
  deduplicate_loop articles [] [].

Definition classify_article (w : World) (article : dict) : M bool :=
  try_except
    (content <- invoke w (CLASSIFY_PROMPT [TECH]
                            (get_default article "title" (PyStr ""))
                            (get_default article "summary" (PyStr ""))) ;;
     ret (Str.startswith (Str.upper (Str.strip content)) "YES"))
    (ret false).

Definition compact_text (articles : list dict) : string :=
  Str.join_lines
    (map (fun a => ("Title: " ++ py_str (get a "title") ++ NL ++
                    "Content: " ++ py_str (get a "summary") ++ NL)%string)
         articles).

Definition summarize (w : World) (articles : list dict) : M string :=
  tell Summarizer ;;;
  res <- invoke w (SUMMARY_PROMPT [TECH] (compact_text articles)) ;;
  ret (Str.strip res).

(** [run_tech_agent] up to
    [combined = deduplicate(rss_articles + newsapi_articles)]. *)
Definition combined_articles (w : World) : M (list dict) :=
  let rss_articles := fetch_rss_articles w in
  queries <- generate_queries w ;;
  newsapi_articles <- lift (fetch_newsapi_articles w queries) ;;
  ret (deduplicate (rss_articles ++ newsapi_articles)).

Definition run_tech_agent (w : World) : M (DigestResult dict) :=
  combined <- combined_articles w ;;
  match combined with
  | [] => ret EmptyDigest
  | _ =>
      relevant <- classify_parallel w (classify_article w) combined ;;
      match relevant with
      | [] => ret EmptyDigest
      | _ =>
          let final_articles := firstn FINAL_ARTICLES relevant in
          s <- summarize w final_articles ;;
          ret (Digest "Technology" None s final_articles)
      end
  end.

(** The value of [final_articles] a run works towards: the head of the
    relevant list, which is empty already when [combined] is. *)
Definition final_articles (w : World) : M (list dict) :=
  combined <- combined_articles w ;;
  match combined with
  | [] => ret []
  | _ =>
      relevant <- classify_parallel w (classify_article w) combined ;;
      ret (firstn FINAL_ARTICLES relevant)
  end.

End Tech.

(* ------------------------------------------------------------------ *)
(** * core/news_client.py *)
(* ------------------------------------------------------------------ *)

Module NewsClient.

(** What [_newsapi.get_everything(q, language, page_size)] does: it returns
    a response (of which the code reads [response.get("articles", [])]),
    raises [NewsAPIException], or raises something else. *)
Inductive reply : Type :=
| Articles (articles : list dict)
| NewsAPIException
| OtherException (e : exn).

Definition client : Type := string -> string -> nat -> reply.

(** Only [NewsAPIException] is caught. *)
Definition fetch_news (api : client) (query : string) (page_size : nat)
           (language : string) : outcome (list dict) :=
  match api query language page_size with
  | Articles articles => Ok articles
  | NewsAPIException => Ok []
  | OtherException e => Raise e
  end.

(** [{a["url"]: a for a in articles if a.get("url")}] *)
Definition file_step (deduped : odict dict) (a : dict) : odict dict :=
  if truthy (get a "url") then setitem (get a "url") a deduped else deduped.

Fixpoint extend_each (api : client) (queries : list string) (page_size : nat)
         (articles : list dict) : outcome (list dict) :=
  match queries with
  | [] => Ok articles
  | q :: rest =>
      obind (fetch_news api q page_size "en") (fun found =>
        extend_each api rest page_size (articles ++ found))
  end.

Definition fetch_multiple_queries (api : client) (queries : list string)
           (page_size : nat) : outcome (list dict) :=
  obind (extend_each api queries page_size []) (fun articles =>
    let deduped := fold_left file_step articles [] in
    Ok (values deduped)).

End NewsClient.

(* ------------------------------------------------------------------ *)
(** * Sample worlds *)
(* ------------------------------------------------------------------ *)

(** A world in which every collaborator is down or silent. *)
Definition quiet_world : World :=
  {| llm_invoke := fun _ => None;
     json_loads := fun _ => None;
     get_everything := fun _ _ _ => None;
     feedparser_parse := fun _ => [];
     date_parser_parse := fun _ => None;
     stock_price := Ok "Stock price unavailable";
     completion_order := [] |}.

Definition with_llm (w : World) (f : prompt -> option string) : World :=
  {| llm_invoke := f;
     json_loads := json_loads w;
     get_everything := get_everything w;
     feedparser_parse := feedparser_parse w;
     date_parser_parse := date_parser_parse w;
     stock_price := stock_price w;
     completion_order := completion_order w |}.

Definition with_order (w : World) (order : list nat) : World :=
  {| llm_invoke := llm_invoke w;
     json_loads := json_loads w;
     get_everything := get_everything w;
     feedparser_parse := feedparser_parse w;
     date_parser_parse := date_parser_parse w;
     stock_price := stock_price w;
     completion_order := order |}.

Definition with_date_parser (w : World) (f : pyval -> option datetime) : World :=
  {| llm_invoke := llm_invoke w;
     json_loads := json_loads w;
     get_everything := get_everything w;
     feedparser_parse := feedparser_parse w;
     date_parser_parse := f;
     stock_price := stock_price w;
     completion_order := completion_order w |}.

Definition with_json_loads (w : World) (f : string -> option json) : World :=
  {| llm_invoke := llm_invoke w;
     json_loads := f;
     get_everything := get_everything w;
     feedparser_parse := feedparser_parse w;
     date_parser_parse := date_parser_parse w;
     stock_price := stock_price w;
     completion_order := completion_order w |}.

(** [json.loads] made to reject one text that is not a JSON document. *)
Definition rejecting (bad : string) (w : World) : World :=
  with_json_loads w (fun s => if String.eqb s bad then None else json_loads w s).

(** [dateutil] on the dates of the ranking example: the ISO-8601 UTC stamp
    of a NewsAPI record parses to an aware datetime (its UTC instant in
    microseconds since year 1), nothing else parses. *)
Definition sample_date_parser (v : pyval) : option datetime :=
  match v with
  | PyStr s =>
      if String.eqb s "2024-01-02T10:00:00Z"
      then Some (Aware 63839786400000000)
      else None
  | PyNone => None
  end.

(** The model answers every prompt with prose that holds no array and does
    not start with YES; the sources return nothing. *)
Definition idle_world : World :=
  with_llm quiet_world (fun _ => Some "No news today.").

(** One RSS entry per feed and a model that answers YES to everything. *)
Definition busy_world : World :=
  {| llm_invoke := fun _ => Some "Yes.";
     json_loads := fun _ => None;
     get_everything := fun _ _ _ => None;
     feedparser_parse := fun _ =>
       [[("title", PyStr " Budget day "); ("link", PyStr "u1")]];
     date_parser_parse := fun _ => None;
     stock_price := Ok "INFY.NS: 1500";
     completion_order := [0] |}.

(** NewsAPI returns one dated record, the feed one entry without a date. *)
Definition dated_world : World :=
  {| llm_invoke := fun _ => Some "No array here.";
     json_loads := fun _ => None;
     get_everything := fun _ _ _ =>
       Some [[("title", PyStr "Infosys results"); ("url", PyStr "u1");
              ("publishedAt", PyStr "2024-01-02T10:00:00Z")]];
     feedparser_parse := fun _ =>
       [[("title", PyStr "Markets today"); ("link", PyStr "u2")]];
     date_parser_parse := sample_date_parser;
     stock_price := Ok "INFY.NS: 1500";
     completion_order := [0; 1] |}.

(* ------------------------------------------------------------------ *)
(** * Vocabulary of the statements *)
(* ------------------------------------------------------------------ *)

(** The url under which the merge step files a normalized record. *)
Definition has_url (u : pyval) (a : Article) : bool := pyval_eqb (url a) u.

(** The value a key holds in an insertion-ordered dict. *)
Fixpoint assoc {A} (k : pyval) (m : odict A) : option A :=
  match m with
  | [] => None
  | (k', v) :: m' => if pyval_eqb k' k then Some v else assoc k m'
  end.

(** The records a first-seen-wins pass keeps, given the keys seen so far. *)
Fixpoint first_wins {A} (key : A -> pyval) (l : list A) (seen : list pyval) : list A :=
  match l with
  | [] => []
  | a :: rest =>
      if truthy (key a) && negb (mem (key a) seen)
      then a :: first_wins key rest (key a :: seen)
      else first_wins key rest seen
  end.

(** The first, respectively last, record of a list filed under a key. *)
Definition first_with {A} (key : A -> pyval) (u : pyval) (l : list A) : option A :=
  find (fun a => pyval_eqb (key a) u) l.

Definition last_with {A} (key : A -> pyval) (u : pyval) (l : list A) : option A :=
  find (fun a => pyval_eqb (key a) u) (rev l).

(** Keys of a list are in non-increasing order. *)
Definition datetime_ge (a b : datetime) : Prop := datetime_lt a b = Ok false.

(** All keys are naive, or all are aware. *)
Definition same_kind (a b : datetime) : bool :=
  match a, b with
  | Naive _, Naive _ => true
  | Aware _, Aware _ => true
  | _, _ => false
  end.

Definition datetime_eqb (a b : datetime) : bool :=
  match a, b with
  | Naive x, Naive y => N.eqb x y
  | Aware x, Aware y => Z.eqb x y
  | _, _ => false
  end.

Definition is_aware (d : datetime) : bool :=
  match d with Aware _ => true | Naive _ => false end.

(** What the merge loop maintains: distinct keys, each entry filed under its own
    truthy url. *)
Definition well_filed (m : odict Article) : Prop :=
  NoDup (map fst m) /\
  Forall (fun e => url (snd e) = fst e /\ truthy (fst e) = true) m.

(** The position of a datetime on its own time line. *)
Definition stamp (d : datetime) : Z :=
  match d with
  | Naive t => Z.of_N t
  | Aware utc => utc
  end.

(** [b] is not more recent than [a]. *)
Definition not_after (key : datetime) (other : datetime) : Prop :=
  (stamp other <= stamp key)%Z.

(** Non-increasing order of a list of keys. *)
Definition descending (keys : list datetime) : Prop :=
  StronglySorted not_after keys.

(** The records of a list whose sort key equals [k], in list order. *)
Definition with_key {A} (key : A -> datetime) (k : datetime) (l : list A) : list A :=
  filter (fun a => datetime_eqb (key a) k) l.

(** What future [i] contributes to [relevant] when it completes. *)
Definition contribution {A} (articles : list A) (verdicts : list bool) (i : nat) : list A :=
  match nth_error verdicts i, nth_error articles i with
  | Some true, Some a => [a]
  | _, _ => []
  end.

(** The positively classified records in the order their calls complete. *)
Definition completed_positives {A} (articles : list A) (verdicts : list bool)
           (order : list nat) : list A :=
  flat_map (contribution articles verdicts) order.

(** The positively classified records in rank (submission) order. *)
Fixpoint rank_order_positives {A} (articles : list A) (verdicts : list bool) : list A :=
  match articles, verdicts with
  | a :: articles', v :: verdicts' =>
      if v then a :: rank_order_positives articles' verdicts'
      else rank_order_positives articles' verdicts'
  | _, _ => []
  end.

(** The three ways query generation can fail on a prompt. *)
Inductive query_failure (w : World) (p : prompt) : Prop :=
| call_fails :
    llm_invoke w p = None -> query_failure w p
| no_array (content : string) :
    llm_invoke w p = Some content -> Re.search_array content = None ->
    query_failure w p
| unparseable_array (content m : string) :
    llm_invoke w p = Some content -> Re.search_array content = Some m ->
    json_loads w m = None -> query_failure w p.

(** A pattern none of whose characters is the upper-case form of a
    whitespace character. *)
Fixpoint solid (p : string) : Prop :=
  match p with
  | EmptyString => True
  | String ch p' =>
      (forall c, Str.upper_char c = ch -> Str.is_space c = false) /\ solid p'
  end.

(** Normalizing RSS entries one after the other; the first failure is the
    failure of the whole. *)
Fixpoint normalize_each (entries : list dict) : outcome (list Article) :=
  match entries with
  | [] => Ok []
  | entry :: rest =>
      obind (normalize_article (rss_entry entry) "rss") (fun n =>
        obind (normalize_each rest) (fun ns => Ok (n :: ns)))
  end.

(** The entries of one feed that the RSS fetch looks at. *)
Definition capped_entries (w : World) (feed_url : string) : list dict :=
  firstn MAX_RSS (feedparser_parse w feed_url).

(** A url that is neither [None] nor the empty string. *)
Definition usable_url (u : pyval) : Prop := u <> PyNone /\ u <> PyStr "".

(** An agent's result is populated. *)
Definition populated {A} (d : DigestResult A) : Prop :=
  match d with
  | EmptyDigest => False
  | Digest _ _ _ _ => True
  end.

(** The character [c] occurs in [s]. *)
Fixpoint contains (c : ascii) (s : string) : bool :=
  match s with
  | EmptyString => false
  | String x s' => Ascii.eqb x c || contains c s'
  end.

(** The list [list.sort] works on: each record next to its sort key. *)
Definition keyed {A} (key : A -> datetime) (l : list A) : list (datetime * A) :=
  map (fun x => (key x, x)) l.


(** A string made of whitespace only. *)
Fixpoint all_space (s : string) : bool :=
  match s with
  | EmptyString => true
  | String c s' => Str.is_space c && all_space s'
  end.

(** The record [normalize_article] builds from a feedparser entry whose
    title is the string [t]. *)
Definition rss_record (entry : dict) (t : string) : Article :=
  {| title := Str.strip t;
     summary := py_or (get entry "summary") (PyStr "");
     url := get entry "link";
     published := get entry "published";
     source := "rss" |}.

(** The record built from an entry that has a title. *)
Definition rss_record_of (entry : dict) : Article :=
  rss_record entry (py_str (get entry "title")).

(** A feedparser entry without a title: [entry.get("title")] is [None]. *)
Definition untitled (entry : dict) : bool :=
  match get entry "title" with
  | PyNone => true
  | PyStr _ => false
  end.

(** The sort key of a record. *)
Definition recency (w : World) (a : Article) : datetime :=
  parse_date_safe w (published a).

(** NewsAPI answers the query [q] of the finance and sports agents. *)
Definition answered (w : World) (q : json) : bool :=
  match get_everything w q (Some "publishedAt") MAX_NEWSAPI with
  | Some _ => true
  | None => false
  end.

(** No future failed. *)
Definition all_returned (results : list (outcome bool)) : Prop :=
  Forall (fun r => exists v, r = Ok v) results.

(** [dateutil] on dates without a timezone: they parse to naive datetimes
    (microseconds since year 1); anything else is rejected. *)
Definition naive_date_parser (v : pyval) : option datetime :=
  match v with
  | PyStr s =>
      if String.eqb s "2024-01-05" then Some (Naive 63840009600000000)
      else if String.eqb s "2024-01-01" then Some (Naive 63839664000000000)
      else None
  | PyNone => None
  end.

Definition dated (u d : string) : Article :=
  {| title := u; summary := PyStr ""; url := PyStr u;
     published := PyStr d; source := "rss" |}.

Definition undated (u : string) : Article :=
  {| title := u; summary := PyStr ""; url := PyStr u;
     published := PyNone; source := "rss" |}.

(** The model answers every prompt with an empty JSON array. *)
Definition empty_array_world : World :=
  {| llm_invoke := fun _ => Some "[]";
     json_loads := fun s => if String.eqb s "[]" then Some (JArr []) else None;
     get_everything := fun _ _ _ => None;
     feedparser_parse := fun _ => [];
     date_parser_parse := fun _ => None;
     stock_price := Ok "INFY.NS: 1500";
     completion_order := [] |}.

(** As [busy_world], but the model fails on every summary prompt. *)
Definition summary_down_world : World :=
  with_llm busy_world
    (fun p => match p with
              | SUMMARY_PROMPT _ _ => None
              | _ => Some "Yes."
              end).

(** The model is down; the single future completes. *)
Definition down_world : World :=
  with_order (with_llm quiet_world (fun _ => None)) [0].

(** Each entry of the dict is filed under its own, truthy url. *)
Definition filed_by_url (m : odict dict) : Prop :=
  Forall (fun e => get (snd e) "url" = fst e /\ truthy (fst e) = true) m.

(** The url of a raw record. *)
Definition url_of (a : dict) : pyval := get a "url".

(** The first exception other than [NewsAPIException] met by the queries
    of [fetch_multiple_queries], if any. *)
Fixpoint first_uncaught (api : NewsClient.client) (queries : list string)
         (page_size : nat) : option exn :=
  match queries with
  | [] => None
  | q :: rest =>
      match api q "en" page_size with
      | NewsClient.OtherException e => Some e
      | _ => first_uncaught api rest page_size
      end
  end.

(** What one query contributes to [fetch_multiple_queries]. *)
Definition found_by (api : NewsClient.client) (page_size : nat) (q : string) : list dict :=
  match api q "en" page_size with
  | NewsClient.Articles articles => articles
  | _ => []
  end.

(** A client that answers two queries, rejects one and breaks on another. *)
Definition sample_client : NewsClient.client :=
  fun q _ _ =>
    if String.eqb q "ai" then
      NewsClient.Articles [[("url", PyStr "u1"); ("title", PyStr "old")];
                           [("title", PyStr "no url")]]
    else if String.eqb q "chips" then
      NewsClient.Articles [[("url", PyStr "u2")];
                           [("url", PyStr "u1"); ("title", PyStr "new")]]
    else if String.eqb q "quota" then NewsClient.NewsAPIException
    else NewsClient.OtherException TypeError.

(* ------------------------------------------------------------------ *)
(** * Basic facts *)
(* ------------------------------------------------------------------ *)

Example search_array_ex :
  Re.search_array "Sure: [a, b] and ]!" = Some "[a, b] and ]".
Proof. reflexivity. Qed.

Example sub_fences_ex :
  Re.sub_fences ("```json" ++ String "010"%char ("[1]" ++ String "010"%char "```"))%string
  = String "010"%char ("[1]" ++ String "010"%char "")%string.
Proof. reflexivity. Qed.

Lemma pyval_eqb_eq (a b : pyval) : pyval_eqb a b = true <-> a = b.
Proof.
  destruct a as [|s], b as [|t]; simpl; split; intro H;
    try reflexivity; try discriminate.
  - apply String.eqb_eq in H. now subst.
  - inversion H. apply String.eqb_refl.
Qed.

Lemma pyval_eqb_refl (a : pyval) : pyval_eqb a a = true.
Proof. now apply pyval_eqb_eq. Qed.

Lemma pyval_eqb_neq (a b : pyval) : pyval_eqb a b = false <-> a <> b.
Proof.
  split; intro H.
  - intro E. apply pyval_eqb_eq in E. congruence.
  - destruct (pyval_eqb a b) eqn:E; [|reflexivity].
    apply pyval_eqb_eq in E. contradiction.
Qed.

Lemma pyval_eqb_sym (a b : pyval) : pyval_eqb a b = pyval_eqb b a.
Proof.
  destruct (pyval_eqb a b) eqn:E.
  - apply pyval_eqb_eq in E. subst. symmetry. apply pyval_eqb_refl.
  - symmetry. apply pyval_eqb_neq. apply pyval_eqb_neq in E. congruence.
Qed.

(** A truthy value is a non-empty string: neither [None] nor [""]. *)
Lemma truthy_spec (v : pyval) :
  truthy v = true <-> exists s, v = PyStr s /\ s <> "".
Proof.
  destruct v as [|s]; simpl.
  - split; [discriminate|]. intros (s & H & _). discriminate.
  - rewrite negb_true_iff, String.eqb_neq. split.
    + intro H. now exists s.
    + intros (s' & H & Hne). now inversion H; subst.
Qed.

Lemma mem_In (x : pyval) (seen : list pyval) : mem x seen = true <-> In x seen.
Proof.
  unfold mem. rewrite existsb_exists. split.
  - intros (y & Hy & E). apply pyval_eqb_eq in E. now subst.
  - intro H. exists x. split; [assumption|apply pyval_eqb_refl].
Qed.

Lemma find_app {A} (p : A -> bool) (l1 l2 : list A) :
  find p (l1 ++ l2) = match find p l1 with Some x => Some x | None => find p l2 end.
Proof.
  induction l1 as [|x l1 IH]; simpl; [reflexivity|].
  now destruct (p x).
Qed.

(* ------------------------------------------------------------------ *)
(** * The insertion-ordered dict *)
(* ------------------------------------------------------------------ *)

Section OrderedDict.
Context {A : Type}.
Implicit Types (m : odict A) (k : pyval) (v : A).

Lemma assoc_setitem_same m k v : assoc k (setitem k v m) = Some v.
Proof.
  induction m as [|[k' v'] m IH]; simpl.
  - now rewrite pyval_eqb_refl.
  - destruct (pyval_eqb k' k) eqn:E; simpl.
    + now rewrite pyval_eqb_refl.
    + now rewrite E.
Qed.

Lemma assoc_setitem_other m k k' v :
  k <> k' -> assoc k (setitem k' v m) = assoc k m.
Proof.
  intro Hne. induction m as [|[k0 v0] m IH]; simpl.
  - assert (pyval_eqb k' k = false) as -> by (apply pyval_eqb_neq; congruence).
    reflexivity.
  - destruct (pyval_eqb k0 k') eqn:E; simpl.
    + apply pyval_eqb_eq in E. subst k0.
      assert (pyval_eqb k' k = false) as -> by (apply pyval_eqb_neq; congruence).
      reflexivity.
    + destruct (pyval_eqb k0 k); [reflexivity|exact IH].
Qed.

Lemma keys_setitem m k v :
  map fst (setitem k v m) =
  if mem k (map fst m) then map fst m else map fst m ++ [k].
Proof.
  induction m as [|[k' v'] m IH]; simpl; [reflexivity|].
  rewrite (pyval_eqb_sym k k').
  destruct (pyval_eqb k' k) eqn:E; simpl.
  - apply pyval_eqb_eq in E. now subst.
  - rewrite IH. unfold mem. now destruct (existsb (pyval_eqb k) (map fst m)).
Qed.

Lemma NoDup_keys_setitem m k v :
  NoDup (map fst m) -> NoDup (map fst (setitem k v m)).
Proof.
  intro H. rewrite keys_setitem.
  destruct (mem k (map fst m)) eqn:E; [assumption|].
  apply NoDup_app; [assumption|repeat constructor; intros []|].
  intros x Hx [<-|[]]. apply mem_In in Hx. congruence.
Qed.

Lemma In_setitem m k v k0 v0 :
  In (k0, v0) (setitem k v m) -> (k0, v0) = (k, v) \/ In (k0, v0) m.
Proof.
  induction m as [|[k' v'] m IH]; simpl.
  - intros [H|[]]. now left.
  - destruct (pyval_eqb k' k); simpl.
    + intros [H|H]; [now left|now right; right].
    + intros [H|H]; [now right; left|].
      destruct (IH H); [now left|now right; right].
Qed.

End OrderedDict.

(* ------------------------------------------------------------------ *)
(** * The merge step of the finance and sports agents *)
(* ------------------------------------------------------------------ *)

Lemma well_filed_step (m : odict Article) (a : Article) :
  well_filed m -> well_filed (combine_step m a).
Proof.
  intros [Hnd Hall]. unfold combine_step.
  destruct (truthy (url a)) eqn:T; [|now split].
  split.
  - now apply NoDup_keys_setitem.
  - apply Forall_forall. intros [k v] Hin.
    apply In_setitem in Hin. destruct Hin as [E|Hin].
    + inversion E; subst. now split.
    + rewrite Forall_forall in Hall. exact (Hall _ Hin).
Qed.

Lemma well_filed_fold (l : list Article) (m : odict Article) :
  well_filed m -> well_filed (fold_left combine_step l m).
Proof.
  revert m. induction l as [|a l IH]; intros m H; simpl; [assumption|].
  apply IH. now apply well_filed_step.
Qed.

Lemma well_filed_nil : well_filed [].
Proof. split; constructor. Qed.

(** The value filed under a truthy url after the loop is the last record
    of the input carrying it, or what was filed before. *)
Lemma assoc_fold (u : pyval) (l : list Article) (m : odict Article) :
  truthy u = true ->
  assoc u (fold_left combine_step l m) =
  match last_with url u l with
  | Some a => Some a
  | None => assoc u m
  end.
Proof.
  intro T. revert m. unfold last_with.
  induction l as [|a l IH]; intro m; simpl; [reflexivity|].
  rewrite IH, find_app. simpl.
  destruct (find (fun a0 => pyval_eqb (url a0) u) (rev l)); [reflexivity|].
  unfold combine_step.
  destruct (pyval_eqb (url a) u) eqn:E.
  - apply pyval_eqb_eq in E. subst u. rewrite T. apply assoc_setitem_same.
  - apply pyval_eqb_neq in E.
    destruct (truthy (url a)); [|reflexivity].
    apply assoc_setitem_other. congruence.
Qed.

Lemma find_values (u : pyval) (m : odict Article) :
  Forall (fun e => url (snd e) = fst e /\ truthy (fst e) = true) m ->
  find (has_url u) (values m) = assoc u m.
Proof.
  induction 1 as [|[k v] m [Hk _] _ IH]; simpl; [reflexivity|].
  unfold has_url at 1. simpl in Hk. rewrite Hk.
  destruct (pyval_eqb k u); [reflexivity|exact IH].
Qed.

Lemma combine_dedupe_truthy (l : list Article) :
  Forall (fun a => truthy (url a) = true) (combine_dedupe l).
Proof.
  unfold combine_dedupe, values.
  destruct (well_filed_fold l [] well_filed_nil) as [_ H].
  apply Forall_forall. intros a Hin.
  apply in_map_iff in Hin. destruct Hin as ([k v] & <- & Hin).
  rewrite Forall_forall in H. destruct (H _ Hin) as [E T].
  simpl in *. now rewrite E.
Qed.

Lemma combine_dedupe_urls (l : list Article) :
  map url (combine_dedupe l) = map fst (fold_left combine_step l []).
Proof.
  unfold combine_dedupe, values.
  destruct (well_filed_fold l [] well_filed_nil) as [_ H].
  induction H as [|[k v] m [Hk _] _ IH]; simpl; [reflexivity|].
  simpl in Hk. now rewrite Hk, IH.
Qed.

Lemma combine_dedupe_NoDup (l : list Article) :
  NoDup (map url (combine_dedupe l)).
Proof.
  rewrite combine_dedupe_urls.
  now destruct (well_filed_fold l [] well_filed_nil).
Qed.

Lemma find_has_url_In (u : pyval) (l : list Article) (a : Article) :
  find (has_url u) l = Some a -> In a l /\ url a = u.
Proof.
  intro H. apply find_some in H. destruct H as [Hin E].
  split; [assumption|now apply pyval_eqb_eq].
Qed.

(** Which record survives under each url. *)
Lemma combine_dedupe_survivor (u : pyval) (l : list Article) :
  find (has_url u) (combine_dedupe l) =
  if truthy u then last_with url u l else None.
Proof.
  destruct (truthy u) eqn:T.
  - unfold combine_dedupe.
    destruct (well_filed_fold l [] well_filed_nil) as [_ H].
    rewrite (find_values u _ H), (assoc_fold u l [] T). simpl.
    now destruct (last_with url u l).
  - destruct (find (has_url u) (combine_dedupe l)) as [a|] eqn:F; [|reflexivity].
    apply find_has_url_In in F. destruct F as [Hin E].
    pose proof (combine_dedupe_truthy l) as H.
    rewrite Forall_forall in H. specialize (H _ Hin). congruence.
Qed.

Lemma In_fold_combine (l : list Article) (m : odict Article) (k : pyval) (a : Article) :
  In (k, a) (fold_left combine_step l m) -> In (k, a) m \/ In a l.
Proof.
  revert m. induction l as [|x l IH]; intros m H; simpl in *; [now left|].
  apply IH in H. destruct H as [H|H]; [|now right; right].
  unfold combine_step in H. destruct (truthy (url x)); [|now left].
  apply In_setitem in H. destruct H as [E|H]; [|now left].
  inversion E; subst. right. now left.
Qed.

Lemma combine_dedupe_incl (l : list Article) : incl (combine_dedupe l) l.
Proof.
  intros a Hin. unfold combine_dedupe, values in Hin.
  apply in_map_iff in Hin. destruct Hin as ([k v] & <- & Hin).
  apply In_fold_combine in Hin. now destruct Hin as [[]|Hin].
Qed.

(* ------------------------------------------------------------------ *)
(** * First-seen-wins passes ([utils/dedup.py], [tech_agent.deduplicate]) *)
(* ------------------------------------------------------------------ *)

Section FirstWins.
Context {A : Type} (key : A -> pyval).

Lemma first_wins_In (l : list A) (seen : list pyval) (a : A) :
  In a (first_wins key l seen) ->
  In a l /\ truthy (key a) = true /\ ~ In (key a) seen.
Proof.
  revert seen. induction l as [|x l IH]; intros seen; simpl; [intros []|].
  destruct (truthy (key x)) eqn:T; simpl.
  - destruct (mem (key x) seen) eqn:E; simpl.
    + intro H. apply IH in H. tauto.
    + intros [<-|H].
      * repeat split; auto. intro H. apply mem_In in H. congruence.
      * apply IH in H. simpl in H. tauto.
  - intro H. apply IH in H. tauto.
Qed.

Lemma first_wins_NoDup (l : list A) (seen : list pyval) :
  NoDup (map key (first_wins key l seen)).
Proof.
  revert seen. induction l as [|x l IH]; intros seen; simpl; [constructor|].
  destruct (truthy (key x) && negb (mem (key x) seen)); [|apply IH].
  simpl. constructor; [|apply IH].
  intro H. apply in_map_iff in H. destruct H as (y & E & Hy).
  apply first_wins_In in Hy. destruct Hy as (_ & _ & Hn).
  apply Hn. left. congruence.
Qed.

Lemma first_wins_survivor (u : pyval) (l : list A) (seen : list pyval) :
  first_with key u (first_wins key l seen) =
  if truthy u && negb (mem u seen) then first_with key u l else None.
Proof.
  unfold first_with. revert seen.
  induction l as [|x l IH]; intros seen; simpl.
  - now destruct (truthy u && negb (mem u seen)).
  - destruct (pyval_eqb (key x) u) eqn:E.
    + apply pyval_eqb_eq in E. subst u.
      destruct (truthy (key x) && negb (mem (key x) seen)) eqn:C.
      * simpl. now rewrite pyval_eqb_refl.
      * rewrite IH, C. reflexivity.
    + destruct (truthy (key x) && negb (mem (key x) seen)) eqn:C.
      * simpl. rewrite E, IH. simpl.
        rewrite (pyval_eqb_sym u (key x)), E. reflexivity.
      * apply IH.
Qed.

End FirstWins.

Lemma dedup_loop_spec (key : string) (articles : list dict)
      (seen : list pyval) (unique : list dict) :
  Dedup.dedup_loop key articles seen unique =
  unique ++ first_wins (fun a => get a key) articles seen.
Proof.
  revert seen unique. induction articles as [|a l IH]; intros seen unique; simpl.
  - now rewrite app_nil_r.
  - destruct (truthy (get a key)); simpl.
    + destruct (mem (get a key) seen); simpl.
      * apply IH.
      * rewrite IH, <- app_assoc. reflexivity.
    + apply IH.
Qed.

Lemma deduplicate_loop_spec (articles : list dict)
      (seen : list pyval) (unique : list dict) :
  Tech.deduplicate_loop articles seen unique =
  unique ++ first_wins (fun a => get a "url") articles seen.
Proof.
  revert seen unique. induction articles as [|a l IH]; intros seen unique; simpl.
  - now rewrite app_nil_r.
  - destruct (truthy (get a "url") && negb (mem (get a "url") seen)).
    + rewrite IH, <- app_assoc. reflexivity.
    + apply IH.
Qed.

Lemma deduplicate_articles_first_wins (articles : list dict) (key : string) :
  Dedup.deduplicate_articles articles key =
  first_wins (fun a => get a key) articles [].
Proof. unfold Dedup.deduplicate_articles. now rewrite dedup_loop_spec. Qed.

Lemma deduplicate_first_wins (articles : list dict) :
  Tech.deduplicate articles = first_wins (fun a => get a "url") articles [].
Proof. unfold Tech.deduplicate. now rewrite deduplicate_loop_spec. Qed.

Lemma last_with_app {A} (key : A -> pyval) (u : pyval) (l1 l2 : list A) :
  last_with key u (l1 ++ l2) =
  match last_with key u l2 with
  | Some r => Some r
  | None => last_with key u l1
  end.
Proof. unfold last_with. now rewrite rev_app_distr, find_app. Qed.

(* ------------------------------------------------------------------ *)
(** * Claims about merging and deduplication *)
(* ------------------------------------------------------------------ *)

(** C2, as stated, fails: a NewsAPI record and an RSS record share the url
    [u1]; after the merge step of the finance and sports agents only the
    RSS record is left. *)
Lemma C2_search_api_record_is_overwritten :
  let n := {| title := "Infosys results"; summary := PyStr "";
              url := PyStr "u1"; published := PyStr "2024-01-02";
              source := "newsapi" |} in
  let r := {| title := "Infosys results"; summary := PyStr "";
              url := PyStr "u1"; published := PyStr "2024-01-05";
              source := "rss" |} in
  combine_dedupe ([n] ++ [r]) = [r] /\ ~ In n (combine_dedupe ([n] ++ [r])).
Proof.
  simpl. split; [reflexivity|].
  intros [H|[]]. discriminate H.
Qed.

(** C2, amended: in the merge step of the finance and sports agents the
    NewsAPI records are listed before the RSS records and a later record
    overwrites an earlier one with the same url, so under every url carried
    by some RSS record the survivor is the last RSS record with that url;
    a NewsAPI record survives only under a url that no RSS record carries. *)
Theorem C2_rss_record_wins_collisions (newsapi rss : list Article) (u : pyval) :
  find (has_url u) (combine_dedupe (newsapi ++ rss)) =
  if truthy u then
    match last_with url u rss with
    | Some r => Some r
    | None => last_with url u newsapi
    end
  else None.
Proof.
  rewrite combine_dedupe_survivor, last_with_app. reflexivity.
Qed.

(** C3, as stated, fails for [deduplicate_articles]: of two records with the
    same url the earlier one is kept and the later one is dropped. *)
Lemma C3_deduplicate_articles_keeps_first :
  let first := [("url", PyStr "u1"); ("title", PyStr "first")] in
  let second := [("url", PyStr "u1"); ("title", PyStr "second")] in
  Dedup.deduplicate_articles [first; second] "url" = [first] /\
  ~ In second (Dedup.deduplicate_articles [first; second] "url").
Proof.
  simpl. split; [reflexivity|].
  intros [H|[]]. discriminate H.
Qed.

(** C3, amended: every deduplication of the repository outputs at most one
    record per url and no record whose url is absent, [None] or empty.
    When several records share a url, the inline merge of the finance and
    sports agents keeps the one latest in input order (last write wins),
    whereas [deduplicate_articles] and the tech agent's [deduplicate] keep
    the one earliest in input order (first seen wins). *)
Theorem C3_dedup_one_per_url_and_survivor
        (l : list Article) (ds : list dict) (key : string) (u : pyval) :
  (NoDup (map url (combine_dedupe l)) /\
   Forall (fun a => truthy (url a) = true) (combine_dedupe l) /\
   find (has_url u) (combine_dedupe l) =
     if truthy u then last_with url u l else None) /\
  (NoDup (map (fun a => get a key) (Dedup.deduplicate_articles ds key)) /\
   Forall (fun a => truthy (get a key) = true) (Dedup.deduplicate_articles ds key) /\
   first_with (fun a => get a key) u (Dedup.deduplicate_articles ds key) =
     if truthy u then first_with (fun a => get a key) u ds else None) /\
  (NoDup (map (fun a => get a "url") (Tech.deduplicate ds)) /\
   Forall (fun a => truthy (get a "url") = true) (Tech.deduplicate ds) /\
   first_with (fun a => get a "url") u (Tech.deduplicate ds) =
     if truthy u then first_with (fun a => get a "url") u ds else None).
Proof.
  split; [|split].
  - split; [apply combine_dedupe_NoDup|].
    split; [apply combine_dedupe_truthy|apply combine_dedupe_survivor].
  - rewrite deduplicate_articles_first_wins.
    split; [apply first_wins_NoDup|]. split.
    + apply Forall_forall. intros a H.
      now apply (first_wins_In (fun a => get a key)) in H.
    + rewrite first_wins_survivor. simpl. now rewrite andb_true_r.
  - rewrite deduplicate_first_wins.
    split; [apply first_wins_NoDup|]. split.
    + apply Forall_forall. intros a H.
      now apply (first_wins_In (fun a => get a "url")) in H.
    + rewrite first_wins_survivor. simpl. now rewrite andb_true_r.
Qed.

(* ------------------------------------------------------------------ *)
(** * The recency sort *)
(* ------------------------------------------------------------------ *)

Lemma datetime_lt_uniform (a b : datetime) :
  is_aware a = is_aware b -> datetime_lt a b = Ok (stamp a <? stamp b)%Z.
Proof.
  destruct a as [x|x], b as [y|y]; simpl; intro H; try discriminate.
  - f_equal. rewrite N.ltb_compare, Z.ltb_compare, N2Z.inj_compare. reflexivity.
  - reflexivity.
Qed.

Lemma datetime_lt_mixed (a b : datetime) :
  is_aware a <> is_aware b -> datetime_lt a b = Raise TypeError.
Proof. destruct a, b; simpl; congruence. Qed.

Lemma datetime_lt_eqb (a b : datetime) :
  datetime_lt a b = Ok true -> datetime_eqb a b = false.
Proof.
  destruct a as [x|x], b as [y|y]; simpl; try discriminate; intro H;
    inversion H as [H1].
  - apply N.ltb_lt in H1. apply N.eqb_neq. lia.
  - apply Z.ltb_lt in H1. apply Z.eqb_neq. lia.
Qed.

Lemma datetime_eqb_eq (a b : datetime) : datetime_eqb a b = true <-> a = b.
Proof.
  destruct a as [x|x], b as [y|y]; simpl; split; intro H; try discriminate.
  - apply N.eqb_eq in H. now subst.
  - inversion H. apply N.eqb_refl.
  - apply Z.eqb_eq in H. now subst.
  - inversion H. apply Z.eqb_refl.
Qed.

Section RecencySort.
Context {A : Type}.
Implicit Types (l r : list (datetime * A)) (k : datetime) (x : A).

Lemma insert_desc_perm k x l r :
  insert_desc k x l = Ok r -> Permutation r ((k, x) :: l).
Proof.
  revert r. induction l as [|[ky y] l IH]; intros r; simpl.
  - intro H. inversion H. apply Permutation_refl.
  - destruct (datetime_lt k ky) as [[|]|e]; simpl; try discriminate.
    + destruct (insert_desc k x l) as [r'|e]; simpl; try discriminate.
      intro H. inversion H. subst r.
      rewrite (IH r' eq_refl). apply perm_swap.
    + intro H. inversion H. apply Permutation_refl.
Qed.

Lemma insert_desc_raise k x l e :
  insert_desc k x l = Raise e -> e = TypeError.
Proof.
  induction l as [|[ky y] l IH]; simpl; [discriminate|].
  destruct (datetime_lt k ky) as [[|]|e'] eqn:L; simpl.
  - destruct (insert_desc k x l) as [r'|e'']; simpl; [discriminate|].
    intro H. inversion H. subst e''. now apply IH.
  - discriminate.
  - intro H. inversion H. subst e'.
    destruct k, ky; simpl in L; congruence.
Qed.

Lemma sort_keyed_desc_perm l r :
  sort_keyed_desc l = Ok r -> Permutation r l.
Proof.
  revert r. induction l as [|[k x] l IH]; intros r; simpl.
  - intro H. inversion H. constructor.
  - destruct (sort_keyed_desc l) as [r'|e]; simpl; [|discriminate].
    intro H. apply insert_desc_perm in H.
    rewrite H. constructor. now apply IH.
Qed.

Lemma sort_keyed_desc_raise l e :
  sort_keyed_desc l = Raise e -> e = TypeError.
Proof.
  revert e. induction l as [|[k x] l IH]; intros e; simpl; [discriminate|].
  destruct (sort_keyed_desc l) as [r'|e']; simpl.
  - apply insert_desc_raise.
  - intro H. inversion H. subst e'. now apply IH.
Qed.

(** Two keys of different kinds anywhere in the list abort the sort. *)
Lemma sort_keyed_desc_mixed l e1 e2 :
  In e1 l -> In e2 l -> is_aware (fst e1) <> is_aware (fst e2) ->
  sort_keyed_desc l = Raise TypeError.
Proof.
  revert e1 e2. induction l as [|[k x] l IH]; intros e1 e2 H1 H2 Hk; [destruct H1|].
  simpl. destruct (sort_keyed_desc l) as [r|e] eqn:S; simpl.
  - assert (forall e, In e l -> is_aware (fst e) <> is_aware k ->
                      insert_desc k x r = Raise TypeError) as Hins.
    { intros e He Hne.
      pose proof (sort_keyed_desc_perm _ _ S) as P.
      destruct r as [|[kh h] r'].
      - apply Permutation_nil in P. subst l. destruct He.
      - simpl.
        destruct (Bool.bool_dec (is_aware kh) (is_aware k)) as [E|E].
        + exfalso.
          assert (In (kh, h) l) as Hh
              by (eapply Permutation_in; [exact P|now left]).
          assert (is_aware (fst e) <> is_aware (fst (kh, h))) as Hd
              by (simpl; congruence).
          pose proof (IH _ _ He Hh Hd) as Hr. congruence.
        + rewrite datetime_lt_mixed by congruence. reflexivity. }
    destruct H1 as [<-|H1], H2 as [<-|H2]; simpl in Hk.
    + congruence.
    + apply (Hins e2 H2). congruence.
    + apply (Hins e1 H1). congruence.
    + pose proof (IH _ _ H1 H2 Hk) as Hr. congruence.
  - f_equal. now apply sort_keyed_desc_raise in S.
Qed.

Lemma insert_desc_uniform b k x l :
  is_aware k = b -> Forall (fun e => is_aware (fst e) = b) l ->
  exists r, insert_desc k x l = Ok r.
Proof.
  intros Hk H. induction H as [|[ky y] l Hy _ IH]; simpl; [eauto|].
  simpl in Hy. rewrite datetime_lt_uniform by congruence. simpl.
  destruct (stamp k <? stamp ky)%Z; [|eauto].
  destruct IH as [r ->]. simpl. eauto.
Qed.

Lemma sort_keyed_desc_uniform b l :
  Forall (fun e => is_aware (fst e) = b) l ->
  exists r, sort_keyed_desc l = Ok r.
Proof.
  induction 1 as [|[k x] l Hk H IH]; simpl; [eauto|].
  destruct IH as [r S]. rewrite S. simpl.
  apply (insert_desc_uniform b); [exact Hk|].
  apply sort_keyed_desc_perm in S.
  rewrite Forall_forall in *. intros e He.
  apply H. eapply Permutation_in; [exact S|exact He].
Qed.

Lemma insert_desc_sorted k x l r :
  StronglySorted not_after (map fst l) ->
  insert_desc k x l = Ok r ->
  StronglySorted not_after (map fst r).
Proof.
  revert r. induction l as [|[ky y] l IH]; intros r Hs; simpl.
  - intro H. inversion H. simpl. repeat constructor.
  - destruct (datetime_lt k ky) as [[|]|e] eqn:L; simpl; try discriminate.
    + destruct (insert_desc k x l) as [r'|e] eqn:I; simpl; try discriminate.
      intro H. inversion H. subst r. simpl in *.
      inversion Hs as [|? ? Hs' Hall]. subst.
      constructor; [now apply IH|].
      apply insert_desc_perm in I.
      apply Forall_forall. intros d Hd.
      apply (Permutation_in _ (Permutation_map fst I)) in Hd.
      destruct Hd as [<-|Hd].
      * unfold not_after. destruct k, ky; simpl in L; try discriminate;
          inversion L as [L1]; simpl.
        -- apply N.ltb_lt in L1. lia.
        -- apply Z.ltb_lt in L1. lia.
      * rewrite Forall_forall in Hall. now apply Hall.
    + intro H. inversion H. subst r. simpl in *.
      constructor; [assumption|].
      assert (not_after k ky) as Hky.
      { unfold not_after. destruct k, ky; simpl in L; try discriminate;
          inversion L as [L1]; simpl.
        - apply N.ltb_ge in L1. lia.
        - apply Z.ltb_ge in L1. lia. }
      constructor; [assumption|].
      inversion Hs as [|? ? _ Hall]. subst.
      eapply Forall_impl; [|exact Hall].
      unfold not_after in *. intros d Hd. lia.
Qed.

Lemma sort_keyed_desc_sorted l r :
  sort_keyed_desc l = Ok r -> StronglySorted not_after (map fst r).
Proof.
  revert r. induction l as [|[k x] l IH]; intros r; simpl.
  - intro H. inversion H. constructor.
  - destruct (sort_keyed_desc l) as [r'|e]; simpl; [|discriminate].
    apply insert_desc_sorted. now apply IH.
Qed.

Lemma insert_desc_stable (p : datetime -> bool) k x l r :
  (forall a b, p a = true -> p b = true -> a = b) ->
  insert_desc k x l = Ok r ->
  filter (fun e => p (fst e)) r = filter (fun e => p (fst e)) ((k, x) :: l).
Proof.
  intro Hp. revert r. induction l as [|[ky y] l IH]; intros r; simpl.
  - intro H. now inversion H.
  - destruct (datetime_lt k ky) as [[|]|e] eqn:L; simpl; try discriminate.
    + destruct (insert_desc k x l) as [r'|e] eqn:I; simpl; try discriminate.
      intro H. inversion H. subst r. simpl.
      rewrite (IH r' eq_refl). simpl.
      destruct (p k) eqn:Pk, (p ky) eqn:Pky; try reflexivity.
      exfalso. apply datetime_lt_eqb in L.
      rewrite (Hp _ _ Pk Pky) in L.
      assert (datetime_eqb ky ky = true) by now apply datetime_eqb_eq.
      congruence.
    + intro H. inversion H. reflexivity.
Qed.

Lemma sort_keyed_desc_stable (p : datetime -> bool) l r :
  (forall a b, p a = true -> p b = true -> a = b) ->
  sort_keyed_desc l = Ok r ->
  filter (fun e => p (fst e)) r = filter (fun e => p (fst e)) l.
Proof.
  intro Hp. revert r. induction l as [|[k x] l IH]; intros r; simpl.
  - intro H. now inversion H.
  - destruct (sort_keyed_desc l) as [r'|e]; simpl; [|discriminate].
    intro H. rewrite (insert_desc_stable p _ _ _ _ Hp H). simpl.
    now rewrite (IH r' eq_refl).
Qed.

End RecencySort.

Section SortDesc.
Context {A : Type} (key : A -> datetime).

Lemma keyed_snd (l : list A) : map snd (keyed key l) = l.
Proof. unfold keyed. rewrite map_map. simpl. apply map_id. Qed.

Lemma keyed_consistent (l : list A) (r : list (datetime * A)) :
  Permutation r (keyed key l) -> Forall (fun e => fst e = key (snd e)) r.
Proof.
  intro P. apply Forall_forall. intros e He.
  apply (Permutation_in _ P) in He. unfold keyed in He.
  apply in_map_iff in He. now destruct He as (x & <- & _).
Qed.

Lemma consistent_keys (r : list (datetime * A)) :
  Forall (fun e => fst e = key (snd e)) r -> map fst r = map key (map snd r).
Proof. induction 1 as [|e r He _ IH]; simpl; congruence. Qed.

Lemma consistent_filter (p : datetime -> bool) (r : list (datetime * A)) :
  Forall (fun e => fst e = key (snd e)) r ->
  map snd (filter (fun e => p (fst e)) r) = filter (fun a => p (key a)) (map snd r).
Proof.
  induction 1 as [|e r He _ IH]; simpl; [reflexivity|].
  rewrite <- He. destruct (p (fst e)); simpl; congruence.
Qed.

(** When the sort returns, its result is the input rearranged, in
    non-increasing key order, with equal keys in their input order. *)
Lemma sort_desc_sound (l out : list A) :
  sort_desc key l = Ok out ->
  Permutation out l /\
  descending (map key out) /\
  forall k, with_key key k out = with_key key k l.
Proof.
  unfold sort_desc. fold (keyed key l).
  destruct (sort_keyed_desc (keyed key l)) as [r|e] eqn:S; simpl; [|discriminate].
  intro H. inversion H. subst out. clear H.
  pose proof (sort_keyed_desc_perm _ _ S) as P.
  pose proof (keyed_consistent _ _ P) as C.
  split; [|split].
  - apply Permutation_trans with (map snd (keyed key l)).
    + now apply Permutation_map.
    + rewrite keyed_snd. apply Permutation_refl.
  - unfold descending. rewrite <- consistent_keys by exact C.
    now apply sort_keyed_desc_sorted in S.
  - intro k. unfold with_key.
    pose proof (consistent_filter (fun d => datetime_eqb d k) r C) as E1.
    pose proof (consistent_filter (fun d => datetime_eqb d k) (keyed key l)
                  (keyed_consistent l _ (Permutation_refl _))) as E2.
    pose proof (sort_keyed_desc_stable (fun d => datetime_eqb d k) (keyed key l) r) as E3.
    cbv beta in E1, E2, E3.
    rewrite <- E1, E3, E2, keyed_snd; [reflexivity| |exact S].
    intros a b Ha Hb. apply datetime_eqb_eq in Ha, Hb. congruence.
Qed.

(** The sort returns when all keys are of one kind. *)
Lemma sort_desc_returns (b : bool) (l : list A) :
  Forall (fun a => is_aware (key a) = b) l -> exists out, sort_desc key l = Ok out.
Proof.
  intro H. unfold sort_desc. fold (keyed key l).
  destruct (sort_keyed_desc_uniform b (keyed key l)) as [r ->].
  - unfold keyed. apply Forall_forall. intros e He.
    apply in_map_iff in He. destruct He as (x & <- & Hx). simpl.
    rewrite Forall_forall in H. now apply H.
  - simpl. eauto.
Qed.

(** The sort raises when a naive and an aware key meet. *)
Lemma sort_desc_mixed (l : list A) (a b : A) :
  In a l -> In b l -> is_aware (key a) <> is_aware (key b) ->
  sort_desc key l = Raise TypeError.
Proof.
  intros Ha Hb Hk. unfold sort_desc. fold (keyed key l).
  rewrite (sort_keyed_desc_mixed (keyed key l) (key a, a) (key b, b)); try reflexivity.
  - unfold keyed. apply in_map_iff. now exists a.
  - unfold keyed. apply in_map_iff. now exists b.
  - exact Hk.
Qed.

End SortDesc.

(* ------------------------------------------------------------------ *)
(** * Claim about ranking *)
(* ------------------------------------------------------------------ *)


Lemma datetime_min_least_naive (t : N) : not_after (Naive t) datetime_min.
Proof. unfold not_after. simpl. lia. Qed.


(** C6 (defect in the code): [parse_date_safe] substitutes the naive
    [datetime.min] for an unparseable date, so as soon as the list also holds
    a record whose date parses to a timezone-aware datetime (every NewsAPI
    [publishedAt], such as 2024-01-02T10:00:00Z, does), the comparison made
    by [list.sort] raises TypeError: the ranking neither returns nor places
    the unparseable record last. *)
Theorem C6_sort_raises_on_unparseable_next_to_aware
        (w : World) (l : list Article) (a b : Article) (utc : Z) :
  In a l -> In b l ->
  date_parser_parse w (published a) = Some (Aware utc) ->
  date_parser_parse w (published b) = None ->
  sort_by_recency w l = Raise TypeError.
Proof.
  intros Ha Hb Pa Pb. unfold sort_by_recency.
  apply (sort_desc_mixed _ l a b Ha Hb).
  unfold parse_date_safe. rewrite Pa, Pb. simpl. discriminate.
Qed.

(** The ranking example: a NewsAPI record next to a record without date. *)
Lemma C6_sort_raises_witness :
  let w := with_date_parser quiet_world sample_date_parser in
  let a := {| title := "Infosys results"; summary := PyStr "";
              url := PyStr "u1"; published := PyStr "2024-01-02T10:00:00Z";
              source := "newsapi" |} in
  let b := {| title := "Markets today"; summary := PyStr "";
              url := PyStr "u2"; published := PyNone; source := "rss" |} in
  sort_by_recency w [a; b] = Raise TypeError.
Proof.
  intros w a b.
  apply (C6_sort_raises_on_unparseable_next_to_aware w [a; b] a b 63839786400000000).
  - simpl. now left.
  - simpl. now right; left.
  - reflexivity.
  - reflexivity.
Defined.

(** The same two records reach the sort in a whole run, which aborts. *)
Example runs_abort_on_mixed_dates :
  result (Finance.run_finance_agent dated_world) = Raise TypeError /\
  result (Sports.run_sports_agent dated_world) = Raise TypeError.
Proof. split; vm_compute; reflexivity. Qed.

(* ------------------------------------------------------------------ *)
(** * Claim about the relevance filter *)
(* ------------------------------------------------------------------ *)

Section Completion.
Context {A : Type}.
Implicit Types (articles relevant : list A) (verdicts : list bool) (order : list nat).

Lemma collect_completed_spec articles verdicts order relevant :
  collect_completed articles (map Ok verdicts) order relevant =
  Ok (relevant ++ completed_positives articles verdicts order).
Proof.
  revert relevant. induction order as [|i order IH]; intro relevant; simpl.
  - now rewrite app_nil_r.
  - unfold contribution. rewrite nth_error_map.
    destruct (nth_error verdicts i) as [[|]|]; simpl;
      destruct (nth_error articles i) as [a|]; rewrite IH; simpl;
      try reflexivity.
    now rewrite <- app_assoc.
Qed.

Lemma contribution_shift a articles v verdicts order :
  flat_map (contribution (a :: articles) (v :: verdicts)) (map S order) =
  flat_map (contribution articles verdicts) order.
Proof.
  induction order as [|i order IH]; simpl; [reflexivity|].
  now rewrite IH.
Qed.

(** Consuming the futures in submission order gives the rank order. *)
Lemma completed_in_submission_order articles verdicts :
  List.length verdicts = List.length articles ->
  completed_positives articles verdicts (seq 0 (List.length articles)) =
  rank_order_positives articles verdicts.
Proof.
  revert verdicts. unfold completed_positives.
  induction articles as [|a articles IH]; intros [|v verdicts] H;
    simpl in *; try reflexivity; try discriminate.
  rewrite <- seq_shift, contribution_shift, IH by congruence.
  unfold contribution. simpl. now destruct v.
Qed.

End Completion.

(** C1, as stated, fails: with ranked input [[a; b; c; d]] and positive
    verdicts for [b] and [d], futures completing in the order d, c, b, a
    give [[d; b]]. *)
Lemma C1_completion_order_reorders :
  valid_order 4 [3; 2; 1; 0] /\
  collect_completed ["a"; "b"; "c"; "d"] (map Ok [false; true; false; true])
                    [3; 2; 1; 0] [] = Ok ["d"; "b"] /\
  collect_completed ["a"; "b"; "c"; "d"] (map Ok [false; true; false; true])
                    [3; 2; 1; 0] []
  <> Ok (rank_order_positives ["a"; "b"; "c"; "d"] [false; true; false; true]).
Proof.
  split; [|split].
  - unfold valid_order. apply (Permutation_sym (Permutation_rev (seq 0 4))).
  - reflexivity.
  - simpl. discriminate.
Qed.

(** C1, amended: for every ranked input list, every verdict assignment and
    every completion order of the classification calls, the relevance filter
    outputs exactly the positively classified records, each once, in the
    order in which their calls complete; this is a rearrangement of the rank
    order, and it is the rank order when the calls complete in the order in
    which they were submitted. *)
Theorem C1_filter_keeps_positives_in_completion_order
        {A : Type} (articles : list A) (verdicts : list bool) (order : list nat) :
  List.length verdicts = List.length articles ->
  valid_order (List.length articles) order ->
  collect_completed articles (map Ok verdicts) order [] =
    Ok (completed_positives articles verdicts order) /\
  Permutation (completed_positives articles verdicts order)
              (rank_order_positives articles verdicts) /\
  (order = seq 0 (List.length articles) ->
   completed_positives articles verdicts order =
   rank_order_positives articles verdicts).
Proof.
  intros Hlen Hord. split; [|split].
  - now rewrite collect_completed_spec.
  - rewrite <- (completed_in_submission_order articles verdicts Hlen).
    unfold completed_positives. now apply Permutation_flat_map.
  - intros ->. now apply completed_in_submission_order.
Qed.

Lemma C1_filter_witness :
  collect_completed ["a"; "b"; "c"; "d"] (map Ok [false; true; false; true])
                    [1; 3; 0; 2] [] = Ok ["b"; "d"].
Proof.
  refine (proj1 (C1_filter_keeps_positives_in_completion_order
                   ["a"; "b"; "c"; "d"] [false; true; false; true] [1; 3; 0; 2]
                   eq_refl _)).
  unfold valid_order. simpl.
  apply Permutation_trans with [1; 0; 3; 2].
  - apply perm_skip. apply perm_swap.
  - apply Permutation_trans with [0; 1; 3; 2]; [apply perm_swap|].
    apply perm_skip. apply perm_skip. apply perm_swap.
Defined.

(* ------------------------------------------------------------------ *)
(** * Logged computations *)
(* ------------------------------------------------------------------ *)

Lemma result_bind {A B} (m : M A) (k : A -> M B) :
  result (bind m k) =
  match result m with
  | Ok a => result (k a)
  | Raise e => Raise e
  end.
Proof.
  destruct m as [t [a|e]]; simpl; [|reflexivity].
  now destruct (k a).
Qed.

Lemma trace_bind {A B} (m : M A) (k : A -> M B) :
  trace (bind m k) =
  match result m with
  | Ok a => trace m ++ trace (k a)
  | Raise _ => trace m
  end.
Proof.
  destruct m as [t [a|e]]; simpl; [|reflexivity].
  now destruct (k a).
Qed.

Lemma bind_ok_inv {A B} (m : M A) (k : A -> M B) (b : B) :
  result (bind m k) = Ok b -> exists a, result m = Ok a /\ result (k a) = Ok b.
Proof.
  rewrite result_bind. destruct (result m) as [a|e]; [eauto|discriminate].
Qed.

Lemma ret_ok_inv {A} (a b : A) : result (ret a) = Ok b -> b = a.
Proof. intro H. inversion H. reflexivity. Qed.

Lemma result_invoke (w : World) (p : prompt) :
  result (invoke w p) =
  match llm_invoke w p with
  | Some content => Ok content
  | None => Raise LLMError
  end.
Proof. reflexivity. Qed.

Lemma trace_invoke (w : World) (p : prompt) : trace (invoke w p) = [Invoke p].
Proof. reflexivity. Qed.

Lemma result_try_except {A} (m h : M A) :
  result (try_except m h) =
  match result m with
  | Ok a => Ok a
  | Raise _ => result h
  end.
Proof.
  destruct m as [t [a|e]]; simpl; [reflexivity|]. now destruct h.
Qed.

Lemma trace_try_except {A} (m h : M A) :
  trace (try_except m h) =
  match result m with
  | Ok _ => trace m
  | Raise _ => trace m ++ trace h
  end.
Proof.
  destruct m as [t [a|e]]; simpl; [reflexivity|]. now destruct h.
Qed.

Lemma result_classify_parallel {A} (w : World) (classify : A -> M bool) (l : list A) :
  result (classify_parallel w classify l) =
  collect_completed l (map (fun a => result (classify a)) l) (completion_order w) [].
Proof. unfold classify_parallel, result. simpl. now rewrite map_map. Qed.

(* ------------------------------------------------------------------ *)
(** * Claim about classification *)
(* ------------------------------------------------------------------ *)

Lemma rstrip_cons_solid (c : ascii) (s : string) :
  Str.is_space c = false -> Str.rstrip (String c s) = String c (Str.rstrip s).
Proof. intro H. simpl. destruct (Str.rstrip s); now rewrite ?H. Qed.

Lemma prefix_nil (s : string) : String.prefix "" s = true.
Proof. now destruct s. Qed.

(** Trailing whitespace never decides a test against a solid pattern. *)
Lemma prefix_upper_rstrip (p t : string) :
  solid p ->
  String.prefix p (Str.upper (Str.rstrip t)) = String.prefix p (Str.upper t).
Proof.
  revert p. induction t as [|c t IH]; intros p Hp; [reflexivity|].
  destruct p as [|ch p]; [now rewrite !prefix_nil|].
  destruct Hp as [Hch Hp].
  destruct (Str.is_space c) eqn:Sp.
  - assert (ch <> Str.upper_char c) as Hne.
    { intro E. symmetry in E. apply Hch in E. congruence. }
    change (Str.upper (String c t)) with (String (Str.upper_char c) (Str.upper t)).
    simpl. destruct (Str.rstrip t) eqn:R; rewrite ?Sp; simpl;
      destruct (ascii_dec ch (Str.upper_char c)); try reflexivity; contradiction.
  - rewrite rstrip_cons_solid by exact Sp.
    change (Str.upper (String c (Str.rstrip t)))
      with (String (Str.upper_char c) (Str.upper (Str.rstrip t))).
    change (Str.upper (String c t)) with (String (Str.upper_char c) (Str.upper t)).
    simpl. destruct (ascii_dec ch (Str.upper_char c)); [|reflexivity].
    now apply IH.
Qed.

Lemma solid_YES : solid "YES".
Proof.
  simpl. repeat split;
    intros [[] [] [] [] [] [] [] []]; vm_compute; intro H;
    try reflexivity; discriminate H.
Qed.

(** The verdict only depends on what follows the leading whitespace. *)
Lemma verdict_ignores_trailing_space (content : string) :
  Str.startswith (Str.upper (Str.strip content)) "YES" =
  Str.startswith (Str.upper (Str.lstrip content)) "YES".
Proof.
  unfold Str.startswith, Str.strip. apply prefix_upper_rstrip, solid_YES.
Qed.

(** When the model answers, both classifiers return the YES test. *)
Lemma classify_article_verdict (w : World) (a : Article) (d : dict) (content : string) :
  (llm_invoke w (CLASSIFY_PROMPT [Sports.TEAM; Sports.SPORT]
                   (PyStr (title a)) (summary a)) = Some content ->
   result (Sports.classify_article w a) =
   Ok (Str.startswith (Str.upper (Str.strip content)) "YES")) /\
  (llm_invoke w (CLASSIFY_PROMPT [Tech.TECH]
                   (get_default d "title" (PyStr ""))
                   (get_default d "summary" (PyStr ""))) = Some content ->
   result (Tech.classify_article w d) =
   Ok (Str.startswith (Str.upper (Str.strip content)) "YES")).
Proof.
  split; intro H.
  - unfold Sports.classify_article. rewrite result_bind, result_invoke, H.
    reflexivity.
  - unfold Tech.classify_article.
    rewrite result_try_except, result_bind, result_invoke, H. reflexivity.
Qed.

(** The tech classifier never raises. *)
Lemma tech_classify_article_total (w : World) (d : dict) :
  exists verdict, result (Tech.classify_article w d) = Ok verdict.
Proof.
  unfold Tech.classify_article.
  rewrite result_try_except, result_bind, result_invoke.
  destruct (llm_invoke w _); simpl; eauto.
Qed.

(** C5 (defect in the code): when the language-model call fails, the sports
    agent's [classify_article] has no handler and raises, where the claim
    (and the tech agent's [classify_article], which catches the failure and
    returns [False]) asks for a negative verdict. *)
Theorem C5_sports_classify_raises_when_model_call_fails
        (w : World) (a : Article) (d : dict) :
  result (Sports.classify_article (with_llm w (fun _ => None)) a) = Raise LLMError /\
  result (Tech.classify_article (with_llm w (fun _ => None)) d) = Ok false.
Proof. split; reflexivity. Qed.

(* ------------------------------------------------------------------ *)
(** * Claim about query generation *)
(* ------------------------------------------------------------------ *)

(** The tech agent's [generate_queries] degrades to the fallback query in
    each of the three failure cases. *)
Lemma tech_generate_queries_fail_soft (w : World) :
  query_failure w (QUERY_PROMPT [Tech.TECH]) ->
  result (Tech.generate_queries w) = Ok Tech.fallback.
Proof.
  intro F. unfold Tech.generate_queries.
  rewrite result_bind, result_try_except, result_bind, result_invoke.
  destruct F as [H | content H S | content m H S J]; rewrite H.
  - reflexivity.
  - now rewrite S.
  - rewrite S. unfold py_json_loads. rewrite J. reflexivity.
Qed.

Lemma tech_generate_queries_total (w : World) :
  exists queries, result (Tech.generate_queries w) = Ok queries.
Proof.
  unfold Tech.generate_queries.
  rewrite result_bind, result_try_except.
  destruct (result _) as [[q|]|e]; simpl; eauto.
Qed.

(** The sports agent's [generate_queries] does so when the model answers. *)
Lemma sports_generate_queries_fail_soft (w : World) (content : string) :
  llm_invoke w (QUERY_PROMPT [Sports.TEAM; Sports.SPORT]) = Some content ->
  (Re.search_array content = None \/
   exists m, Re.search_array content = Some m /\ json_loads w m = None) ->
  result (Sports.generate_queries w) = Ok Sports.fallback.
Proof.
  intros H F. unfold Sports.generate_queries.
  rewrite result_bind, result_invoke, H.
  destruct F as [S | (m & S & J)]; rewrite S; [reflexivity|].
  unfold py_json_loads. now rewrite J.
Qed.

(** C4 (defect in the code): query generation does raise.  When the model
    call fails, the finance agent's inline query generation and the sports
    agent's [generate_queries] raise; when the model returns a bracketed
    text that is not JSON, the finance agent raises the decoder's error.
    The tech agent's [generate_queries] returns its fallback query in both
    situations, and the sports agent's in the second. *)
Theorem C4_query_generation_raises (w : World) :
  let down := with_llm w (fun _ => None) in
  let garbled :=
    rejecting "[Infosys stock, IT stock]"
      (with_llm w (fun _ => Some "Queries: [Infosys stock, IT stock]")) in
  (result (Finance.generate_queries down) = Raise LLMError /\
   result (Sports.generate_queries down) = Raise LLMError /\
   result (Tech.generate_queries down) = Ok Tech.fallback) /\
  (result (Finance.generate_queries garbled) = Raise JSONDecodeError /\
   result (Sports.generate_queries garbled) = Ok Sports.fallback /\
   result (Tech.generate_queries garbled) = Ok Tech.fallback).
Proof. repeat split; reflexivity. Qed.

(* ------------------------------------------------------------------ *)
(** * Claim about the two caps *)
(* ------------------------------------------------------------------ *)

Lemma append_normalized_acc (raw : list dict) (articles : list Article) :
  append_normalized raw articles = articles ++ append_normalized raw [].
Proof.
  revert articles. induction raw as [|a raw IH]; intro articles; simpl.
  - now rewrite app_nil_r.
  - destruct (normalize_article a "newsapi") as [n|e].
    + rewrite IH, (IH [n]), <- app_assoc. reflexivity.
    + now rewrite app_nil_r.
Qed.

Lemma newsapi_query_acc (w : World) (articles : list Article) (q : json) :
  newsapi_query w articles q = articles ++ newsapi_query w [] q.
Proof.
  unfold newsapi_query.
  destruct (get_everything w q _ _).
  - apply append_normalized_acc.
  - now rewrite app_nil_r.
Qed.

Lemma tech_newsapi_query_acc (w : World) (articles : list dict) (q : json) :
  Tech.newsapi_query w articles q = articles ++ Tech.newsapi_query w [] q.
Proof.
  unfold Tech.newsapi_query.
  destruct (get_everything w q _ _); [reflexivity|now rewrite app_nil_r].
Qed.

(** A loop that only appends computes a concatenation. *)
Lemma fold_left_appending {A Q} (step : list A -> Q -> list A)
      (Hstep : forall acc q, step acc q = acc ++ step [] q)
      (qs : list Q) (acc : list A) :
  fold_left step qs acc = acc ++ List.concat (map (step []) qs).
Proof.
  revert acc. induction qs as [|q qs IH]; intro acc; simpl.
  - now rewrite app_nil_r.
  - rewrite IH, (Hstep acc q), <- app_assoc. reflexivity.
Qed.

Lemma append_rss_acc (entries : list dict) (articles : list Article) :
  append_rss entries articles =
  obind (normalize_each entries) (fun ns => Ok (articles ++ ns)).
Proof.
  revert articles. induction entries as [|e entries IH]; intro articles; simpl.
  - now rewrite app_nil_r.
  - destruct (normalize_article (rss_entry e) "rss") as [n|x]; simpl; [|reflexivity].
    rewrite IH. destruct (normalize_each entries) as [ns|x]; simpl; [|reflexivity].
    now rewrite <- app_assoc.
Qed.

Lemma normalize_each_app (e1 e2 : list dict) :
  normalize_each (e1 ++ e2) =
  obind (normalize_each e1) (fun n1 =>
    obind (normalize_each e2) (fun n2 => Ok (n1 ++ n2))).
Proof.
  induction e1 as [|e e1 IH]; simpl.
  - now destruct (normalize_each e2).
  - destruct (normalize_article (rss_entry e) "rss") as [n|x]; simpl; [|reflexivity].
    rewrite IH. destruct (normalize_each e1) as [n1|x]; simpl; [|reflexivity].
    now destruct (normalize_each e2).
Qed.

Lemma fetch_rss_from_acc (w : World) (feeds : list string) (articles : list Article) :
  Sports.fetch_rss_from w feeds articles =
  obind (normalize_each (List.concat (map (capped_entries w) feeds)))
        (fun ns => Ok (articles ++ ns)).
Proof.
  revert articles. induction feeds as [|f feeds IH]; intro articles.
  - simpl. now rewrite app_nil_r.
  - cbn [Sports.fetch_rss_from map List.concat].
    fold (capped_entries w f).
    rewrite append_rss_acc, normalize_each_app.
    destruct (normalize_each (capped_entries w f)) as [n1|x]; cbn [obind];
      [|reflexivity].
    rewrite IH.
    destruct (normalize_each _) as [n2|x]; cbn [obind]; [|reflexivity].
    now rewrite <- app_assoc.
Qed.

Lemma normalize_each_length (entries : list dict) (out : list Article) :
  normalize_each entries = Ok out -> List.length out = List.length entries.
Proof.
  revert out. induction entries as [|e entries IH]; intro out; simpl.
  - intro H. now inversion H.
  - destruct (normalize_article (rss_entry e) "rss") as [n|x]; simpl; [|discriminate].
    destruct (normalize_each entries) as [ns|x]; simpl; [|discriminate].
    intro H. inversion H. simpl. f_equal. now apply IH.
Qed.

Lemma tech_fetch_rss_articles_map (w : World) :
  Tech.fetch_rss_articles w =
  map Tech.rss_article (firstn MAX_RSS (feedparser_parse w Tech.TECH_RSS_FEED)).
Proof.
  unfold Tech.fetch_rss_articles.
  generalize (firstn MAX_RSS (feedparser_parse w Tech.TECH_RSS_FEED)) as entries.
  intro entries.
  rewrite (fold_left_appending (fun articles entry => articles ++ [Tech.rss_article entry]))
    by reflexivity.
  simpl. induction entries as [|e entries IH]; simpl; congruence.
Qed.

(** C7: the NewsAPI fetch of the three agents concatenates what each query
    contributes and cuts only the concatenation to [MAX_NEWSAPI], so it
    never returns more than [MAX_NEWSAPI] records whatever the number of
    queries; the RSS fetch cuts every feed to [MAX_RSS] entries first and
    concatenates afterwards, so each feed contributes up to [MAX_RSS]
    records of its own. *)
Theorem C7_global_cap_and_per_feed_cap
        (w : World) (queries : list json) (feeds : list string) :
  (fetch_newsapi_articles w (JArr queries) =
     Ok (firstn MAX_NEWSAPI (List.concat (map (newsapi_query w []) queries))) /\
   Tech.fetch_newsapi_articles w (JArr queries) =
     Ok (firstn MAX_NEWSAPI (List.concat (map (Tech.newsapi_query w []) queries)))) /\
  (Sports.fetch_rss_from w feeds [] =
     normalize_each (List.concat (map (fun f => firstn MAX_RSS (feedparser_parse w f)) feeds)) /\
   Finance.fetch_rss_articles w =
     normalize_each (firstn MAX_RSS (feedparser_parse w Finance.FINANCE_RSS_FEED)) /\
   Tech.fetch_rss_articles w =
     map Tech.rss_article (firstn MAX_RSS (feedparser_parse w Tech.TECH_RSS_FEED))).
Proof.
  split; [split|split; [|split]].
  - unfold fetch_newsapi_articles. simpl.
    now rewrite (fold_left_appending _ (newsapi_query_acc w)).
  - unfold Tech.fetch_newsapi_articles. simpl.
    now rewrite (fold_left_appending _ (tech_newsapi_query_acc w)).
  - rewrite fetch_rss_from_acc. fold (capped_entries w).
    now destruct (normalize_each _).
  - unfold Finance.fetch_rss_articles. rewrite append_rss_acc.
    now destruct (normalize_each _).
  - apply tech_fetch_rss_articles_map.
Qed.

(** The asymmetry on an example: two queries that return ten records each
    leave ten records, two feeds with ten entries each leave twenty. *)
Example caps_differ :
  let record := [("title", PyStr "t"); ("url", PyStr "u"); ("link", PyStr "u")] in
  let w := {| llm_invoke := fun _ => None;
              json_loads := fun _ => None;
              get_everything := fun _ _ _ => Some (repeat record 10);
              feedparser_parse := fun _ => repeat record 10;
              date_parser_parse := fun _ => None;
              stock_price := Ok "";
              completion_order := [] |} in
  (exists out, fetch_newsapi_articles w (JArr [JStr "q1"; JStr "q2"]) = Ok out /\
               List.length out = 10) /\
  (exists out, Sports.fetch_rss_from w ["feed1"; "feed2"] [] = Ok out /\
               List.length out = 20).
Proof.
  split; eexists; split; vm_compute; reflexivity.
Qed.

(* ------------------------------------------------------------------ *)
(** * Claim about the empty selection *)
(* ------------------------------------------------------------------ *)

Lemma summarizer_free_app (t1 t2 : list event) :
  summarizer_free t1 -> summarizer_free t2 -> summarizer_free (t1 ++ t2).
Proof. unfold summarizer_free. intros. now apply Forall_app. Qed.

Lemma summarizer_free_nil : summarizer_free [].
Proof. constructor. Qed.

Lemma summarizer_free_bind {A B} (m : M A) (k : A -> M B) :
  summarizer_free (trace m) ->
  (forall a, result m = Ok a -> summarizer_free (trace (k a))) ->
  summarizer_free (trace (bind m k)).
Proof.
  intros Hm Hk. rewrite trace_bind.
  destruct (result m) as [a|e] eqn:R; [|assumption].
  apply summarizer_free_app; [assumption|now apply Hk].
Qed.

Lemma summarizer_free_try_except {A} (m h : M A) :
  summarizer_free (trace m) -> summarizer_free (trace h) ->
  summarizer_free (trace (try_except m h)).
Proof.
  intros Hm Hh. rewrite trace_try_except.
  destruct (result m); [assumption|now apply summarizer_free_app].
Qed.

Lemma summarizer_free_lift {A} (o : outcome A) : summarizer_free (trace (lift o)).
Proof. constructor. Qed.

Lemma summarizer_free_ret {A} (a : A) : summarizer_free (trace (ret a)).
Proof. constructor. Qed.

Lemma summarizer_free_invoke (w : World) (p : prompt) :
  is_summarizer (Invoke p) = false -> summarizer_free (trace (invoke w p)).
Proof. intro H. rewrite trace_invoke. now repeat constructor. Qed.

Lemma summarizer_free_classify_parallel {A} (w : World)
      (classify : A -> M bool) (l : list A) :
  (forall a, summarizer_free (trace (classify a))) ->
  summarizer_free (trace (classify_parallel w classify l)).
Proof.
  intro H. unfold classify_parallel, trace. simpl.
  induction l as [|a l IH]; simpl; [constructor|].
  apply summarizer_free_app; [apply H|exact IH].
Qed.

Create HintDb quiet.
#[local] Hint Resolve summarizer_free_lift summarizer_free_ret
  summarizer_free_nil : quiet.

Ltac quiet_step :=
  first
    [ apply summarizer_free_invoke; reflexivity
    | solve [auto with quiet]
    | apply summarizer_free_classify_parallel; intros ?
    | apply summarizer_free_try_except
    | apply summarizer_free_bind; [|intros ? _] ].

Lemma finance_generate_queries_quiet (w : World) :
  summarizer_free (trace (Finance.generate_queries w)).
Proof. unfold Finance.generate_queries. repeat quiet_step. Qed.

Lemma sports_generate_queries_quiet (w : World) :
  summarizer_free (trace (Sports.generate_queries w)).
Proof.
  unfold Sports.generate_queries. repeat quiet_step.
  destruct (Re.search_array _); [destruct (py_json_loads _ _) as [q|]|];
    try destruct (json_truthy q); auto with quiet.
Qed.

Lemma tech_generate_queries_quiet (w : World) :
  summarizer_free (trace (Tech.generate_queries w)).
Proof.
  unfold Tech.generate_queries. repeat quiet_step.
  - destruct (Re.search_array _); repeat quiet_step.
    destruct (_ && _); auto with quiet.
  - destruct a; auto with quiet.
Qed.

Lemma finance_final_articles_quiet (w : World) :
  summarizer_free (trace (Finance.final_articles w)).
Proof.
  unfold Finance.final_articles.
  apply summarizer_free_bind; [apply finance_generate_queries_quiet|intros ? _].
  repeat quiet_step.
Qed.

Lemma sports_final_articles_quiet (w : World) :
  summarizer_free (trace (Sports.final_articles w)).
Proof.
  unfold Sports.final_articles.
  apply summarizer_free_bind; [apply sports_generate_queries_quiet|intros ? _].
  unfold Sports.classify_article. repeat quiet_step.
Qed.

Lemma tech_classification_quiet (w : World) (l : list dict) :
  summarizer_free (trace (classify_parallel w (Tech.classify_article w) l)).
Proof. unfold Tech.classify_article. repeat quiet_step. Qed.

Lemma tech_combined_articles_quiet (w : World) :
  summarizer_free (trace (Tech.combined_articles w)).
Proof.
  unfold Tech.combined_articles.
  apply summarizer_free_bind; [apply tech_generate_queries_quiet|intros ? _].
  repeat quiet_step.
Qed.

(** C8: whenever the truncated final selection of a run is empty, the
    finance, sports and tech agents return the empty dict, which is not a
    populated digest, and the run performs no summarizer call. *)
Theorem C8_empty_selection_skips_summarizer (w : World) :
  (result (Finance.final_articles w) = Ok [] ->
   result (Finance.run_finance_agent w) = Ok EmptyDigest /\
   summarizer_free (trace (Finance.run_finance_agent w))) /\
  (result (Sports.final_articles w) = Ok [] ->
   result (Sports.run_sports_agent w) = Ok EmptyDigest /\
   summarizer_free (trace (Sports.run_sports_agent w))) /\
  (result (Tech.final_articles w) = Ok [] ->
   result (Tech.run_tech_agent w) = Ok EmptyDigest /\
   summarizer_free (trace (Tech.run_tech_agent w))) /\
  ~ populated (@EmptyDigest Article) /\ ~ populated (@EmptyDigest dict).
Proof.
  split; [|split; [|split; [|split; intros []]]].
  - intro H. unfold Finance.run_finance_agent.
    rewrite result_bind, trace_bind, H. split; [reflexivity|].
    apply summarizer_free_app; [apply finance_final_articles_quiet|constructor].
  - intro H. unfold Sports.run_sports_agent.
    rewrite result_bind, trace_bind, H. split; [reflexivity|].
    apply summarizer_free_app; [apply sports_final_articles_quiet|constructor].
  - unfold Tech.final_articles, Tech.run_tech_agent.
    rewrite !result_bind, trace_bind.
    pose proof (tech_combined_articles_quiet w) as Q.
    destruct (result (Tech.combined_articles w)) as [[|d combined]|e];
      [intros _|intro H|discriminate].
    + split; [reflexivity|]. apply summarizer_free_app; [exact Q|constructor].
    + rewrite result_bind in H. rewrite result_bind, trace_bind.
      pose proof (tech_classification_quiet w (d :: combined)) as Qc.
      destruct (result (classify_parallel w (Tech.classify_article w) (d :: combined)))
        as [relevant|e]; [|discriminate].
      assert (relevant = []) as ->.
      { destruct relevant; [reflexivity|discriminate H]. }
      split; [reflexivity|].
      apply summarizer_free_app; [exact Q|].
      apply summarizer_free_app; [exact Qc|constructor].
Qed.

(** A run with a non-empty selection does enter the summarizer. *)
Example populated_run_calls_summarizer :
  In Summarizer (trace (Finance.run_finance_agent busy_world)) /\
  In Summarizer (trace (Sports.run_sports_agent busy_world)) /\
  In Summarizer (trace (Tech.run_tech_agent busy_world)) /\
  result (Sports.run_sports_agent busy_world) =
    Ok (Digest "Sports News" None "Yes."
          [{| title := "Budget day"; summary := PyStr ""; url := PyStr "u1";
              published := PyNone; source := "rss" |}]).
Proof.
  repeat split; vm_compute; tauto.
Qed.

Lemma C8_empty_selection_witness :
  result (Finance.run_finance_agent idle_world) = Ok EmptyDigest /\
  result (Sports.run_sports_agent idle_world) = Ok EmptyDigest /\
  result (Tech.run_tech_agent idle_world) = Ok EmptyDigest.
Proof.
  destruct (C8_empty_selection_skips_summarizer idle_world) as (F & S & T & _).
  split; [|split].
  - apply F. reflexivity.
  - apply S. reflexivity.
  - apply T. reflexivity.
Defined.

(* ------------------------------------------------------------------ *)
(** * Claim about utils/json_utils.py *)
(* ------------------------------------------------------------------ *)








(** What the block looks like when there is one. *)
Lemma upto_last_ends (c : ascii) (s r : string) :
  Re.upto_last c s = Some r -> exists r', r = (r' ++ String c "")%string.
Proof.
  revert r. induction s as [|x s IH]; intro r; simpl; [discriminate|].
  destruct (Re.upto_last c s) as [r0|].
  - intro H. inversion H. destruct (IH r0 eq_refl) as [r' ->].
    now exists (String x r').
  - destruct (Ascii.eqb x c) eqn:E; [|discriminate].
    apply Ascii.eqb_eq in E. subst x.
    intro H. inversion H. now exists "".
Qed.

(** The text handed to [json.loads] by the agents is a bracketed one. *)
Lemma search_array_shape (s m : string) :
  Re.search_array s = Some m ->
  exists body, m = String "["%char (body ++ String "]"%char "")%string.
Proof.
  induction s as [|x s IH]; [discriminate|].
  cbn [Re.search_array].
  destruct (Re.delimited_here "["%char "]"%char (String x s)) as [m'|] eqn:D;
    [|exact IH].
  intro H. inversion H. subst m'. clear H.
  unfold Re.delimited_here in D.
  destruct (Ascii.eqb x "["%char) eqn:E; [|discriminate].
  apply Ascii.eqb_eq in E. subst x.
  destruct (Re.upto_last "]"%char s) as [r|] eqn:U; [|discriminate].
  inversion D. apply upto_last_ends in U. destruct U as [r' ->]. eauto.
Qed.


Example extract_json_block_ex :
  JsonUtils.extract_json_block
    (PyStr ("Here you go:" ++ NL ++ "```json" ++ NL ++ "[1, 2]" ++ NL ++ "```"))
  = Some "[1, 2]".
Proof. reflexivity. Qed.

(* ------------------------------------------------------------------ *)
(** * Claim about falsy urls *)
(* ------------------------------------------------------------------ *)

Lemma truthy_usable (u : pyval) : truthy u = true -> usable_url u.
Proof.
  intro H. apply truthy_spec in H. destruct H as (s & -> & Hs).
  split; [discriminate|]. intro E. inversion E. contradiction.
Qed.

Lemma Forall_incl {A} (P : A -> Prop) (l l' : list A) :
  incl l' l -> Forall P l -> Forall P l'.
Proof.
  intros Hi H. rewrite Forall_forall in *. intros x Hx. apply H, Hi, Hx.
Qed.

Lemma firstn_incl {A} (n : nat) (l : list A) : incl (firstn n l) l.
Proof.
  intros x Hx. rewrite <- (firstn_skipn n l). apply in_or_app. now left.
Qed.

Lemma collect_completed_incl {A} (articles : list A) (results : list (outcome bool))
      (order : list nat) (relevant out : list A) :
  collect_completed articles results order relevant = Ok out ->
  incl out (relevant ++ articles).
Proof.
  revert relevant. induction order as [|i order IH]; intro relevant; simpl.
  - intro H. inversion H. subst. apply incl_appl, incl_refl.
  - destruct (nth_error results i) as [[[|]|e]|];
      destruct (nth_error articles i) as [a|] eqn:N;
      try discriminate; intro H; try (now apply IH).
    apply IH in H. intros x Hx. apply H in Hx.
    rewrite <- app_assoc in Hx. apply in_app_or in Hx.
    destruct Hx as [Hx|Hx]; apply in_or_app; [now left|right].
    simpl in Hx. destruct Hx as [<-|Hx]; [|assumption].
    eapply nth_error_In. exact N.
Qed.

Lemma classify_parallel_incl {A} (w : World) (classify : A -> M bool)
      (l relevant : list A) :
  result (classify_parallel w classify l) = Ok relevant -> incl relevant l.
Proof.
  rewrite result_classify_parallel. intro H.
  apply collect_completed_incl in H. exact H.
Qed.

Lemma sort_by_recency_incl (w : World) (l ranked : list Article) :
  sort_by_recency w l = Ok ranked -> incl ranked l.
Proof.
  intro H. apply sort_desc_sound in H. destruct H as (P & _).
  intros x Hx. eapply Permutation_in; [exact P|exact Hx].
Qed.

Lemma combine_dedupe_usable (l : list Article) :
  Forall (fun a => usable_url (url a)) (combine_dedupe l).
Proof.
  eapply Forall_impl; [|apply combine_dedupe_truthy].
  intros a. apply truthy_usable.
Qed.

Lemma tech_deduplicate_usable (ds : list dict) :
  Forall (fun a => usable_url (get a "url")) (Tech.deduplicate ds).
Proof.
  rewrite deduplicate_first_wins. apply Forall_forall. intros a H.
  apply (first_wins_In (fun a => get a "url")) in H.
  now apply truthy_usable.
Qed.

(** C10: every deduplication of the repository drops the records whose url
    is [None] or the empty string, not only those without a url, so no
    such record is ranked, classified or selected by any of the agents. *)
Theorem C10_falsy_urls_stop_at_the_merge
        (w : World) (l : list Article) (ds : list dict) (key : string) :
  (Forall (fun a => usable_url (url a)) (combine_dedupe l) /\
   Forall (fun a => usable_url (get a key)) (Dedup.deduplicate_articles ds key) /\
   Forall (fun a => usable_url (get a "url")) (Tech.deduplicate ds)) /\
  (forall ranked, sort_by_recency w (combine_dedupe l) = Ok ranked ->
                  Forall (fun a => usable_url (url a)) ranked) /\
  (forall ranked relevant,
      sort_by_recency w (combine_dedupe l) = Ok ranked ->
      result (classify_parallel w (Sports.classify_article w) ranked) = Ok relevant ->
      Forall (fun a => usable_url (url a)) relevant) /\
  (forall final, result (Finance.final_articles w) = Ok final ->
                 Forall (fun a => usable_url (url a)) final) /\
  (forall final, result (Sports.final_articles w) = Ok final ->
                 Forall (fun a => usable_url (url a)) final) /\
  (forall final, result (Tech.final_articles w) = Ok final ->
                 Forall (fun a => usable_url (get a "url")) final).
Proof.
  split; [split; [|split]|split; [|split; [|split; [|split]]]].
  - apply combine_dedupe_usable.
  - rewrite deduplicate_articles_first_wins. apply Forall_forall. intros a H.
    apply (first_wins_In (fun a => get a key)) in H. now apply truthy_usable.
  - apply tech_deduplicate_usable.
  - intros ranked H.
    eapply Forall_incl; [eapply sort_by_recency_incl; exact H|].
    apply combine_dedupe_usable.
  - intros ranked relevant H R.
    eapply Forall_incl; [eapply classify_parallel_incl; exact R|].
    eapply Forall_incl; [eapply sort_by_recency_incl; exact H|].
    apply combine_dedupe_usable.
  - intros final H. unfold Finance.final_articles in H.
    apply bind_ok_inv in H. destruct H as (q & _ & H).
    apply bind_ok_inv in H. destruct H as (n & _ & H).
    apply bind_ok_inv in H. destruct H as (r & _ & H).
    apply bind_ok_inv in H. destruct H as (ranked & S & H).
    apply ret_ok_inv in H. subst final.
    eapply Forall_incl; [apply firstn_incl|].
    eapply Forall_incl; [eapply sort_by_recency_incl; exact S|].
    apply combine_dedupe_usable.
  - intros final H. unfold Sports.final_articles in H.
    apply bind_ok_inv in H. destruct H as (q & _ & H).
    apply bind_ok_inv in H. destruct H as (n & _ & H).
    apply bind_ok_inv in H. destruct H as (r & _ & H).
    apply bind_ok_inv in H. destruct H as (ranked & S & H).
    apply bind_ok_inv in H. destruct H as (relevant & R & H).
    apply ret_ok_inv in H. subst final.
    eapply Forall_incl; [apply firstn_incl|].
    eapply Forall_incl; [eapply classify_parallel_incl; exact R|].
    eapply Forall_incl; [eapply sort_by_recency_incl; exact S|].
    apply combine_dedupe_usable.
  - intros final H. unfold Tech.final_articles in H.
    apply bind_ok_inv in H. destruct H as (combined & C & H).
    unfold Tech.combined_articles in C.
    apply bind_ok_inv in C. destruct C as (q & _ & C).
    apply bind_ok_inv in C. destruct C as (n & _ & C).
    apply ret_ok_inv in C. rename C into C1. symmetry in C1.
    pose proof (tech_deduplicate_usable (Tech.fetch_rss_articles w ++ n)) as U.
    rewrite C1 in U.
    destruct combined as [|d combined].
    + apply ret_ok_inv in H. subst final. constructor.
    + apply bind_ok_inv in H. destruct H as (relevant & R & H).
      apply ret_ok_inv in H. subst final.
      eapply Forall_incl; [apply firstn_incl|].
      eapply Forall_incl; [eapply classify_parallel_incl; exact R|].
      exact U.
Qed.

(** A record whose url is the empty string next to a usable one. *)
Example empty_url_is_dropped :
  let blank := {| title := "no link"; summary := PyStr ""; url := PyStr "";
                  published := PyNone; source := "rss" |} in
  let good := {| title := "linked"; summary := PyStr ""; url := PyStr "u1";
                 published := PyNone; source := "rss" |} in
  combine_dedupe [blank; good] = [good] /\
  Dedup.deduplicate_articles [[("url", PyStr "")]; [("url", PyStr "u1")]] "url"
    = [[("url", PyStr "u1")]] /\
  Tech.deduplicate [[("url", PyStr "")]; [("title", PyStr "t")]; [("url", PyStr "u1")]]
    = [[("url", PyStr "u1")]].
Proof. repeat split. Qed.

(* ------------------------------------------------------------------ *)
(** * Further properties: the ranking *)
(* ------------------------------------------------------------------ *)

Lemma forallb_false_exists {A} (p : A -> bool) (l : list A) :
  forallb p l = false -> exists x, In x l /\ p x = false.
Proof.
  induction l as [|x l IH]; simpl; [discriminate|].
  destruct (p x) eqn:P; simpl.
  - intro H. destruct (IH H) as (y & Hy & Py). exists y. auto.
  - intros _. exists x. auto.
Qed.

(** The ranking raises exactly when the list holds a naive and an aware
    timestamp, and then it raises TypeError; otherwise it returns. *)
Theorem ranking_raises_iff_kinds_mix (w : World) (l : list Article) :
  (sort_by_recency w l = Raise TypeError <->
   exists a b, In a l /\ In b l /\
               is_aware (recency w a) <> is_aware (recency w b)) /\
  (forall e, sort_by_recency w l = Raise e -> e = TypeError) /\
  ((exists out, sort_by_recency w l = Ok out) <->
   forall a b, In a l -> In b l -> is_aware (recency w a) = is_aware (recency w b)).
Proof.
  assert (forall e, sort_by_recency w l = Raise e -> e = TypeError) as Honly.
  { intros e. unfold sort_by_recency, sort_desc.
    destruct (sort_keyed_desc _) as [r|e'] eqn:S; simpl; [discriminate|].
    intro H. inversion H. subst e'. now apply sort_keyed_desc_raise in S. }
  assert ((forall a b, In a l -> In b l ->
                       is_aware (recency w a) = is_aware (recency w b)) ->
          exists out, sort_by_recency w l = Ok out) as Hret.
  { intro U. destruct l as [|a0 l'].
    - now exists [].
    - apply (sort_desc_returns _ (is_aware (recency w a0))).
      apply Forall_forall. intros x Hx. apply U; [exact Hx|now left]. }
  assert ((exists a b, In a l /\ In b l /\
                       is_aware (recency w a) <> is_aware (recency w b)) ->
          sort_by_recency w l = Raise TypeError) as Hmix.
  { intros (a & b & Ha & Hb & Hk). now apply (sort_desc_mixed _ l a b). }
  split; [|split; [exact Honly|]].
  - split; [|exact Hmix]. intro R.
    destruct l as [|a0 l']; [discriminate R|].
    destruct (forallb (fun x => Bool.eqb (is_aware (recency w x)) (is_aware (recency w a0)))
                      (a0 :: l')) eqn:F.
    + exfalso. rewrite forallb_forall in F.
      destruct Hret as [out Hout]; [|congruence].
      intros a b Ha Hb. apply F in Ha, Hb.
      apply Bool.eqb_prop in Ha, Hb. congruence.
    + apply forallb_false_exists in F. destruct F as (x & Hx & Px).
      exists x, a0. split; [exact Hx|]. split; [now left|].
      intro E. rewrite E, Bool.eqb_reflx in Px. discriminate.
  - split; [|exact Hret]. intros [out Hout] a b Ha Hb.
    destruct (Bool.bool_dec (is_aware (recency w a)) (is_aware (recency w b)))
      as [E|E]; [exact E|].
    rewrite Hmix in Hout; [discriminate|]. now exists a, b.
Qed.




Example ranking_example :
  sort_by_recency (with_date_parser quiet_world naive_date_parser)
                  [dated "u1" "2024-01-01"; undated "u2"; dated "u3" "2024-01-05";
                   undated "u4"]
  = Ok [dated "u3" "2024-01-05"; dated "u1" "2024-01-01"; undated "u2"; undated "u4"].
Proof. reflexivity. Qed.

(* ------------------------------------------------------------------ *)
(** * Further properties: normalization and fetching *)
(* ------------------------------------------------------------------ *)

Lemma lstrip_head (s : string) (c : ascii) (r : string) :
  Str.lstrip s = String c r -> Str.is_space c = false.
Proof.
  induction s as [|x s IH]; simpl; [discriminate|].
  destruct (Str.is_space x) eqn:E; [exact IH|].
  intro H. inversion H. now subst.
Qed.

Lemma lstrip_fixed (s : string) :
  (forall c r, s = String c r -> Str.is_space c = false) -> Str.lstrip s = s.
Proof.
  destruct s as [|c r]; [reflexivity|]. intro H. simpl.
  now rewrite (H c r eq_refl).
Qed.

Lemma rstrip_head (s : string) (c : ascii) (r : string) :
  Str.is_space c = false -> s = String c r ->
  exists r', Str.rstrip s = String c r'.
Proof. intros H ->. rewrite rstrip_cons_solid by exact H. eauto. Qed.

Lemma rstrip_idempotent (s : string) : Str.rstrip (Str.rstrip s) = Str.rstrip s.
Proof.
  induction s as [|c s IH]; [reflexivity|]. simpl.
  destruct (Str.rstrip s) as [|y r] eqn:R.
  - destruct (Str.is_space c) eqn:E; [reflexivity|]. simpl. now rewrite E.
  - change (Str.rstrip (String c (String y r)))
      with (match Str.rstrip (String y r) with
            | EmptyString => if Str.is_space c then EmptyString else String c EmptyString
            | r0 => String c r0
            end).
    now rewrite IH.
Qed.

(** Trimming twice is trimming once; a trimmed string neither starts nor
    ends with whitespace. *)
Lemma strip_idempotent (s : string) : Str.strip (Str.strip s) = Str.strip s.
Proof.
  unfold Str.strip.
  assert (Str.lstrip (Str.rstrip (Str.lstrip s)) = Str.rstrip (Str.lstrip s)) as ->.
  { apply lstrip_fixed. intros c r H.
    destruct (Str.lstrip s) as [|c0 r0] eqn:L; [discriminate H|].
    pose proof (lstrip_head _ _ _ L) as Hc.
    rewrite rstrip_cons_solid in H by exact Hc. inversion H. now subst. }
  apply rstrip_idempotent.
Qed.

Lemma rstrip_all_space (s : string) :
  Str.rstrip s = EmptyString <-> all_space s = true.
Proof.
  induction s as [|c s IH]; simpl; [tauto|].
  destruct (Str.rstrip s) as [|y r] eqn:R.
  - destruct (Str.is_space c); simpl.
    + split; [intros _; now apply IH|reflexivity].
    + split; discriminate.
  - split; [discriminate|]. intro H. apply andb_true_iff in H.
    destruct H as [_ H]. apply IH in H. discriminate.
Qed.

Lemma rstrip_decompose (s : string) :
  exists ws, s = (Str.rstrip s ++ ws)%string /\ all_space ws = true.
Proof.
  induction s as [|c s (ws & E & W)]; [now exists ""|]. simpl.
  destruct (Str.rstrip s) as [|y r] eqn:R.
  - destruct (Str.is_space c) eqn:Sp.
    + exists (String c s). split; [reflexivity|]. simpl. rewrite Sp. simpl.
      now apply rstrip_all_space.
    + exists ws. simpl in *. split; [now f_equal|exact W].
  - exists ws. split; [|exact W]. simpl. f_equal. exact E.
Qed.

Lemma lstrip_decompose (s : string) :
  exists ws, s = (ws ++ Str.lstrip s)%string /\ all_space ws = true.
Proof.
  induction s as [|c s (ws & E & W)]; [now exists ""|]. simpl.
  destruct (Str.is_space c) eqn:Sp.
  - exists (String c ws). simpl. rewrite Sp, W. split; [now f_equal|reflexivity].
  - now exists "".
Qed.

(** [normalize_article] fails only on a title that is present and [None];
    on every other record it returns a record whose title is trimmed (it
    is the input title without the whitespace around it) and whose source
    is the tag it was given. *)
Theorem normalize_article_trims_title (a : dict) (src : string) :
  (normalize_article a src = Raise AttributeError <->
   lookup a "title" = Some PyNone) /\
  (forall e, normalize_article a src = Raise e -> e = AttributeError) /\
  (forall n, normalize_article a src = Ok n ->
     Str.strip (title n) = title n /\
     source n = src /\
     exists lead trail,
       get_default a "title" (PyStr "") = PyStr (lead ++ title n ++ trail) /\
       all_space lead = true /\ all_space trail = true).
Proof.
  unfold normalize_article, get_default.
  destruct (lookup a "title") as [[|t]|].
  - split; [tauto|]. split.
    + intros e H. now inversion H.
    + intros n H. discriminate H.
  - split; [split; discriminate|]. split; [discriminate|].
    intros n H. inversion H. subst n. simpl. clear H.
    split; [apply strip_idempotent|]. split; [reflexivity|].
    unfold Str.strip.
    destruct (lstrip_decompose t) as (lead & E1 & W1).
    destruct (rstrip_decompose (Str.lstrip t)) as (trail & E2 & W2).
    exists lead, trail. split; [|split; assumption].
    f_equal. rewrite E1 at 1. f_equal. exact E2.
  - split; [split; discriminate|]. split; [discriminate|].
    intros n H. inversion H. subst n. simpl. clear H.
    split; [reflexivity|]. split; [reflexivity|].
    now exists "", "".
Qed.

Lemma normalize_rss_entry (entry : dict) :
  normalize_article (rss_entry entry) "rss" =
  if untitled entry then Raise AttributeError else Ok (rss_record_of entry).
Proof.
  unfold normalize_article, rss_record_of, rss_record, untitled.
  change (get_default (rss_entry entry) "title" (PyStr "")) with (get entry "title").
  destruct (get entry "title") as [|t]; reflexivity.
Qed.

Lemma normalize_each_spec (entries : list dict) :
  normalize_each entries =
  if existsb untitled entries then Raise AttributeError
  else Ok (map rss_record_of entries).
Proof.
  induction entries as [|e entries IH]; [reflexivity|].
  cbn [normalize_each existsb map]. rewrite normalize_rss_entry.
  destruct (untitled e); [reflexivity|]. cbn [obind orb]. rewrite IH.
  now destruct (existsb untitled entries).
Qed.

(** The RSS fetch of the finance and sports agents has no handler: it
    raises AttributeError as soon as one of the entries it looks at (the
    first [MAX_RSS] of each feed) has no title, and otherwise returns one
    record per such entry, in feed order, with the entry's link as url, a
    summary that is never [None] and the source tag rss. *)
Theorem rss_fetch_raises_on_untitled_entry (w : World) (feeds : list string) :
  Sports.fetch_rss_from w feeds [] =
    (if existsb untitled (List.concat (map (capped_entries w) feeds))
     then Raise AttributeError
     else Ok (map rss_record_of (List.concat (map (capped_entries w) feeds)))) /\
  Finance.fetch_rss_articles w =
    (if existsb untitled (capped_entries w Finance.FINANCE_RSS_FEED)
     then Raise AttributeError
     else Ok (map rss_record_of (capped_entries w Finance.FINANCE_RSS_FEED))) /\
  (forall entry, url (rss_record_of entry) = get entry "link" /\
                 summary (rss_record_of entry) <> PyNone /\
                 source (rss_record_of entry) = "rss").
Proof.
  split; [|split].
  - rewrite fetch_rss_from_acc, normalize_each_spec.
    now destruct (existsb untitled _).
  - unfold Finance.fetch_rss_articles. rewrite append_rss_acc.
    fold (capped_entries w Finance.FINANCE_RSS_FEED).
    rewrite normalize_each_spec. now destruct (existsb untitled _).
  - intro entry. split; [reflexivity|]. split; [|reflexivity].
    unfold rss_record_of, rss_record, py_or. simpl.
    destruct (get entry "summary") as [|t]; simpl; [discriminate|].
    destruct (negb (String.eqb t "")); discriminate.
Qed.

Lemma normalize_article_source (a : dict) (src : string) (n : Article) :
  normalize_article a src = Ok n -> source n = src.
Proof.
  unfold normalize_article.
  destruct (get_default a "title" (PyStr "")); [discriminate|].
  intro H. now inversion H.
Qed.

Lemma append_normalized_source (raw : list dict) :
  Forall (fun a => source a = "newsapi") (append_normalized raw []).
Proof.
  induction raw as [|a raw IH]; simpl; [constructor|].
  destruct (normalize_article a "newsapi") as [n|e] eqn:N; [|constructor].
  rewrite append_normalized_acc. simpl. constructor; [|exact IH].
  now apply normalize_article_source in N.
Qed.

Lemma concat_map_filter {A B} (f : A -> list B) (p : A -> bool) (l : list A) :
  (forall x, p x = false -> f x = []) ->
  List.concat (map f l) = List.concat (map f (filter p l)).
Proof.
  intro H. induction l as [|x l IH]; simpl; [reflexivity|].
  destruct (p x) eqn:P; simpl; [now rewrite IH|].
  now rewrite (H x P).
Qed.

(** The NewsAPI fetch of the finance and sports agents is fail-soft on a
    list of queries: it always returns, with at most [MAX_NEWSAPI] records,
    all tagged newsapi, and a query whose call fails changes nothing: the
    result is the one obtained from the answered queries alone. *)
Theorem newsapi_fetch_skips_failed_queries (w : World) (queries : list json) :
  exists out,
    fetch_newsapi_articles w (JArr queries) = Ok out /\
    List.length out <= MAX_NEWSAPI /\
    Forall (fun a => source a = "newsapi") out /\
    fetch_newsapi_articles w (JArr (filter (answered w) queries)) = Ok out.
Proof.
  unfold fetch_newsapi_articles. cbn [py_iter obind].
  rewrite !(fold_left_appending _ (newsapi_query_acc w)). cbn [app].
  eexists. split; [reflexivity|]. split; [apply firstn_le_length|]. split.
  - eapply Forall_incl; [apply firstn_incl|].
    apply Forall_forall. intros a Ha.
    apply in_concat in Ha. destruct Ha as (batch & Hb & Ha).
    apply in_map_iff in Hb. destruct Hb as (q & <- & _).
    unfold newsapi_query in Ha.
    destruct (get_everything w q _ _) as [raw|]; [|destruct Ha].
    pose proof (append_normalized_source raw) as S.
    rewrite Forall_forall in S. now apply S.
  - f_equal. f_equal. symmetry. apply concat_map_filter.
    intros q. unfold answered, newsapi_query.
    now destruct (get_everything w q _ _).
Qed.

(* ------------------------------------------------------------------ *)
(** * Further properties: deduplication *)
(* ------------------------------------------------------------------ *)

Section FirstWinsMore.
Context {A : Type} (key : A -> pyval).


Lemma first_wins_seen_ext (l : list A) (s1 s2 : list pyval) :
  (forall x, mem x s1 = mem x s2) ->
  first_wins key l s1 = first_wins key l s2.
Proof.
  revert s1 s2. induction l as [|x l IH]; intros s1 s2 H; simpl; [reflexivity|].
  rewrite (H (key x)).
  destruct (truthy (key x) && negb (mem (key x) s2)).
  - f_equal. apply IH. intro y. unfold mem in *. simpl. now rewrite H.
  - now apply IH.
Qed.



End FirstWinsMore.



Lemma setitem_fresh {A} (k : pyval) (v : A) (m : odict A) :
  mem k (map fst m) = false -> setitem k v m = m ++ [(k, v)].
Proof.
  induction m as [|[k' v'] m IH]; simpl; [reflexivity|].
  unfold mem. simpl. rewrite (pyval_eqb_sym k k').
  destruct (pyval_eqb k' k); simpl; [discriminate|].
  intro H. f_equal. now apply IH.
Qed.

Lemma keys_fold_combine (l : list Article) (m : odict Article) :
  map fst (fold_left combine_step l m) =
  map fst m ++ map url (first_wins url l (map fst m)).
Proof.
  revert m. induction l as [|a l IH]; intro m; simpl.
  - now rewrite app_nil_r.
  - rewrite IH. unfold combine_step.
    destruct (truthy (url a)) eqn:T; simpl; [|reflexivity].
    rewrite keys_setitem.
    destruct (mem (url a) (map fst m)) eqn:M; simpl; [reflexivity|].
    rewrite <- app_assoc. simpl. do 3 f_equal.
    apply first_wins_seen_ext. intro x. unfold mem.
    rewrite existsb_app. simpl. rewrite orb_false_r. apply orb_comm.
Qed.

Lemma refile (m2 m1 : odict Article) :
  well_filed (m1 ++ m2) ->
  fold_left combine_step (values m2) m1 = m1 ++ m2.
Proof.
  revert m1. induction m2 as [|[k a] m2 IH]; intros m1 W; simpl.
  - now rewrite app_nil_r.
  - destruct W as [Hnd Hall].
    assert (url a = k /\ truthy k = true) as [Hk T].
    { rewrite Forall_forall in Hall. apply (Hall (k, a)).
      apply in_or_app. right. now left. }
    unfold combine_step at 2. rewrite Hk, T.
    rewrite setitem_fresh.
    + rewrite IH; rewrite <- app_assoc; [reflexivity|]. now split.
    + destruct (mem k (map fst m1)) eqn:M; [|reflexivity].
      apply mem_In in M. rewrite map_app in Hnd. simpl in Hnd.
      apply NoDup_remove_2 in Hnd. exfalso. apply Hnd.
      apply in_or_app. now left.
Qed.

(** The dict-based merge of the finance and sports agents lists the urls
    in first-seen order, exactly as a first-seen-wins pass would (only the
    record kept under each url differs), keeps only input records, and
    merging a merged list again changes nothing. *)
Theorem merge_lists_urls_in_first_seen_order (l : list Article) :
  map url (combine_dedupe l) = map url (first_wins url l []) /\
  incl (combine_dedupe l) l /\
  combine_dedupe (combine_dedupe l) = combine_dedupe l.
Proof.
  split; [|split].
  - rewrite combine_dedupe_urls, keys_fold_combine. reflexivity.
  - apply combine_dedupe_incl.
  - unfold combine_dedupe at 1 2.
    rewrite (refile (fold_left combine_step l []) []); [reflexivity|].
    apply well_filed_fold, well_filed_nil.
Qed.

(* ------------------------------------------------------------------ *)
(** * Further properties: query generation and the tech agent *)
(* ------------------------------------------------------------------ *)

Lemma generated_queries_are_never_empty_aux (w : World) :
  exists q qs, result (Tech.generate_queries w) = Ok (JArr (q :: qs)).
Proof.
  unfold Tech.generate_queries.
  rewrite result_bind, result_try_except, result_bind, result_invoke.
  destruct (llm_invoke w _) as [content|]; [|simpl; unfold Tech.fallback; eauto].
  destruct (Re.search_array content) as [m|]; [|simpl; unfold Tech.fallback; eauto].
  rewrite result_bind. unfold py_json_loads.
  destruct (json_loads w m) as [[| | | |[|q qs]|]|]; simpl; unfold Tech.fallback; eauto.
Qed.

(** The tech agent's [generate_queries] always returns a non-empty list.
    The sports agent's returns a truthy value whenever it returns, and the
    only exception it lets through is the failure of the model call. *)
Theorem generated_queries_are_never_empty (w : World) :
  (exists q qs, result (Tech.generate_queries w) = Ok (JArr (q :: qs))) /\
  (forall v, result (Sports.generate_queries w) = Ok v -> json_truthy v = true) /\
  (forall e, result (Sports.generate_queries w) = Raise e ->
             e = LLMError /\
             llm_invoke w (QUERY_PROMPT [Sports.TEAM; Sports.SPORT]) = None).
Proof.
  split; [|split].
  - apply generated_queries_are_never_empty_aux.
  - intro v. unfold Sports.generate_queries.
    rewrite result_bind, result_invoke.
    destruct (llm_invoke w _) as [content|]; [|discriminate].
    destruct (Re.search_array content) as [m|]; [|intro H; now inversion H].
    destruct (py_json_loads w m) as [queries|]; [|intro H; now inversion H].
    destruct (json_truthy queries) eqn:T; intro H; inversion H; subst; auto.
  - intro e. unfold Sports.generate_queries.
    rewrite result_bind, result_invoke.
    destruct (llm_invoke w _) as [content|]; [|intro H; now inversion H].
    destruct (Re.search_array content) as [m|]; [|discriminate].
    destruct (py_json_loads w m) as [queries|]; [|discriminate].
    destruct (json_truthy queries); discriminate.
Qed.

(** An empty array from the model: the sports and tech agents fall back to
    their default query, the finance agent passes the empty list on and
    its NewsAPI fetch then makes no call and returns nothing. *)
Theorem empty_array_falls_back_except_in_finance (w : World) (content m : string) :
  (forall params, llm_invoke w (QUERY_PROMPT params) = Some content) ->
  Re.search_array content = Some m ->
  json_loads w m = Some (JArr []) ->
  result (Sports.generate_queries w) = Ok Sports.fallback /\
  result (Tech.generate_queries w) = Ok Tech.fallback /\
  result (Finance.generate_queries w) = Ok (JArr []) /\
  fetch_newsapi_articles w (JArr []) = Ok [].
Proof.
  intros L S J. repeat split.
  - unfold Sports.generate_queries. rewrite result_bind, result_invoke, L, S.
    unfold py_json_loads. now rewrite J.
  - unfold Tech.generate_queries.
    rewrite result_bind, result_try_except, result_bind, result_invoke, L, S.
    unfold py_json_loads. now rewrite J.
  - unfold Finance.generate_queries. rewrite result_bind, result_invoke, L, S.
    unfold py_json_loads. now rewrite J.
Qed.

Lemma empty_array_witness :
  result (Sports.generate_queries empty_array_world) = Ok Sports.fallback /\
  result (Tech.generate_queries empty_array_world) = Ok Tech.fallback /\
  result (Finance.generate_queries empty_array_world) = Ok (JArr []) /\
  fetch_newsapi_articles empty_array_world (JArr []) = Ok [].
Proof.
  apply (empty_array_falls_back_except_in_finance empty_array_world "[]" "[]");
    reflexivity.
Defined.

Lemma collect_completed_total {A} (articles : list A) (results : list (outcome bool))
      (order : list nat) (relevant : list A) :
  all_returned results ->
  exists out, collect_completed articles results order relevant = Ok out.
Proof.
  intro H. revert relevant.
  induction order as [|i order IH]; intro relevant; simpl; [eauto|].
  destruct (nth_error results i) as [r|] eqn:N; [|apply IH].
  apply nth_error_In in N. unfold all_returned in H.
  rewrite Forall_forall in H. destruct (H r N) as [v ->].
  destruct v, (nth_error articles i); apply IH.
Qed.

Lemma tech_classification_total (w : World) (l : list dict) :
  exists relevant, result (classify_parallel w (Tech.classify_article w) l) = Ok relevant.
Proof.
  rewrite result_classify_parallel. apply collect_completed_total.
  apply Forall_forall. intros r Hr. apply in_map_iff in Hr.
  destruct Hr as (d & <- & _). apply tech_classify_article_total.
Qed.

Lemma tech_combined_articles_total (w : World) :
  exists combined, result (Tech.combined_articles w) = Ok combined.
Proof.
  unfold Tech.combined_articles. rewrite result_bind.
  destruct (generated_queries_are_never_empty_aux w) as (q & qs & ->).
  rewrite result_bind. unfold Tech.fetch_newsapi_articles. cbn [py_iter obind].
  unfold lift, result. simpl. eauto.
Qed.

Lemma bind_raise_inv {A B} (m : M A) (k : A -> M B) (e : exn) :
  result (bind m k) = Raise e ->
  result m = Raise e \/ exists a, result m = Ok a /\ result (k a) = Raise e.
Proof.
  rewrite result_bind. destruct (result m) as [a|e']; intro H.
  - right. exists a. now split.
  - left. inversion H. reflexivity.
Qed.

Lemma trace_bind_ok {A B} (m : M A) (k : A -> M B) (a : A) :
  result m = Ok a -> trace (bind m k) = trace m ++ trace (k a).
Proof. intro H. rewrite trace_bind. now rewrite H. Qed.

Lemma result_bind_ok {A B} (m : M A) (k : A -> M B) (a : A) :
  result m = Ok a -> result (bind m k) = result (k a).
Proof. intro H. rewrite result_bind. now rewrite H. Qed.

Lemma tech_summarize_spec (w : World) (l : list dict) :
  result (Tech.summarize w l) =
    match llm_invoke w (SUMMARY_PROMPT [Tech.TECH] (Tech.compact_text l)) with
    | Some res => Ok (Str.strip res)
    | None => Raise LLMError
    end /\
  In Summarizer (trace (Tech.summarize w l)).
Proof.
  unfold Tech.summarize, invoke, bind, tell, lift, ret, result, trace.
  destruct (llm_invoke w _); simpl; auto.
Qed.

Lemma sports_summarize_spec (w : World) (l : list Article) :
  result (Sports.summarize_articles w l) =
    match llm_invoke w (SUMMARY_PROMPT [Sports.TEAM; Sports.SPORT] (numbered_titles l)) with
    | Some res => Ok (Str.strip res)
    | None => Raise LLMError
    end.
Proof.
  unfold Sports.summarize_articles, invoke, bind, tell, lift, ret, result.
  destruct (llm_invoke w _); reflexivity.
Qed.

Lemma finance_summarize_spec (w : World) (l : list Article) :
  result (Finance.summarize_articles w l) =
    Ok (match llm_invoke w (SUMMARY_PROMPT [Finance.SECTOR; Finance.STOCK]
                              (numbered_titles l)) with
        | Some res => Str.strip res
        | None => "Summary unavailable"
        end).
Proof.
  unfold Finance.summarize_articles, try_except, invoke, bind, tell, lift, ret, result.
  destruct (llm_invoke w _); reflexivity.
Qed.

(** Everything the tech agent does before summarizing is fail-soft: its
    selection always returns, with at most [FINAL_ARTICLES] records, and a
    run can only raise from inside the summarizer, with the failure of the
    model call. *)
Theorem tech_agent_raises_only_in_summarizer (w : World) :
  (exists final, result (Tech.final_articles w) = Ok final /\
                 List.length final <= FINAL_ARTICLES) /\
  (forall e, result (Tech.run_tech_agent w) = Raise e ->
             e = LLMError /\ In Summarizer (trace (Tech.run_tech_agent w))).
Proof.
  destruct (tech_combined_articles_total w) as [combined C].
  split.
  - unfold Tech.final_articles. rewrite (result_bind_ok _ _ _ C).
    destruct combined as [|d combined].
    + exists []. split; [reflexivity|]. simpl. lia.
    + destruct (tech_classification_total w (d :: combined)) as [relevant R].
      rewrite (result_bind_ok _ _ _ R).
      exists (firstn FINAL_ARTICLES relevant).
      split; [reflexivity|apply firstn_le_length].
  - intro e. unfold Tech.run_tech_agent.
    rewrite (result_bind_ok _ _ _ C), (trace_bind_ok _ _ _ C).
    destruct combined as [|d combined]; [discriminate|].
    destruct (tech_classification_total w (d :: combined)) as [relevant R].
    rewrite (result_bind_ok _ _ _ R), (trace_bind_ok _ _ _ R).
    destruct relevant as [|r relevant]; [discriminate|].
    set (final := firstn FINAL_ARTICLES (r :: relevant)).
    destruct (tech_summarize_spec w final) as [Rs Ts].
    intro H. apply bind_raise_inv in H.
    destruct H as [H | (s & _ & H)]; [|discriminate H].
    split.
    + rewrite Rs in H. destruct (llm_invoke w _); [discriminate|].
      now inversion H.
    + apply in_or_app. right. apply in_or_app. right.
      rewrite trace_bind. rewrite H. exact Ts.
Qed.

(** Once its selection is made, the finance agent cannot fail on the
    model: a failing summary call leaves the text "Summary unavailable" in
    a populated digest, and only the stock lookup can still raise. *)
Theorem finance_run_survives_summary_failure (w : World) (final : list Article) :
  result (Finance.final_articles w) = Ok final ->
  final <> [] ->
  result (Finance.run_finance_agent w) =
  match stock_price w with
  | Ok stock_info =>
      Ok (Digest "Finance News" (Some stock_info)
            (match llm_invoke w (SUMMARY_PROMPT [Finance.SECTOR; Finance.STOCK]
                                   (numbered_titles final)) with
             | Some res => Str.strip res
             | None => "Summary unavailable"
             end)
            final)
  | Raise e => Raise e
  end.
Proof.
  intros F Hne. unfold Finance.run_finance_agent.
  rewrite (result_bind_ok _ _ _ F).
  destruct final as [|a final]; [contradiction|].
  rewrite result_bind. unfold lift at 1. unfold result at 1. cbn [snd].
  destruct (stock_price w) as [stock_info|e]; [|reflexivity].
  rewrite result_bind, finance_summarize_spec. reflexivity.
Qed.

Lemma finance_run_survives_witness :
  result (Finance.run_finance_agent summary_down_world) =
  Ok (Digest "Finance News" (Some "INFY.NS: 1500") "Summary unavailable"
        [rss_record [("title", PyStr " Budget day "); ("link", PyStr "u1")]
                    " Budget day "]).
Proof.
  refine (finance_run_survives_summary_failure summary_down_world
            [rss_record [("title", PyStr " Budget day "); ("link", PyStr "u1")]
                        " Budget day "] _ _).
  - reflexivity.
  - discriminate.
Defined.

(** The sports and tech agents have no handler around their summary call:
    with a non-empty selection, a failing call aborts the run. *)
Theorem sports_and_tech_runs_abort_on_summary_failure (w : World) :
  (forall final,
      result (Sports.final_articles w) = Ok final -> final <> [] ->
      llm_invoke w (SUMMARY_PROMPT [Sports.TEAM; Sports.SPORT]
                      (numbered_titles final)) = None ->
      result (Sports.run_sports_agent w) = Raise LLMError) /\
  (forall final,
      result (Tech.final_articles w) = Ok final -> final <> [] ->
      llm_invoke w (SUMMARY_PROMPT [Tech.TECH] (Tech.compact_text final)) = None ->
      result (Tech.run_tech_agent w) = Raise LLMError).
Proof.
  split; intros final F Hne L.
  - unfold Sports.run_sports_agent. rewrite (result_bind_ok _ _ _ F).
    destruct final as [|a final]; [contradiction|].
    rewrite result_bind, sports_summarize_spec, L. reflexivity.
  - unfold Tech.final_articles in F. unfold Tech.run_tech_agent.
    apply bind_ok_inv in F. destruct F as (combined & C & F).
    rewrite (result_bind_ok _ _ _ C).
    destruct combined as [|d combined].
    + apply ret_ok_inv in F. congruence.
    + apply bind_ok_inv in F. destruct F as (relevant & R & F).
      apply ret_ok_inv in F. rewrite (result_bind_ok _ _ _ R).
      destruct relevant as [|r relevant]; [subst final; contradiction|].
      rewrite result_bind. rewrite <- F.
      destruct (tech_summarize_spec w final) as [-> _]. now rewrite L.
Qed.

Lemma runs_abort_on_summary_failure_witness :
  result (Sports.run_sports_agent summary_down_world) = Raise LLMError /\
  result (Tech.run_tech_agent summary_down_world) = Raise LLMError.
Proof.
  destruct (sports_and_tech_runs_abort_on_summary_failure summary_down_world)
    as [S T].
  split.
  - apply (S [rss_record [("title", PyStr " Budget day "); ("link", PyStr "u1")]
                         " Budget day "]);
      [reflexivity|discriminate|reflexivity].
  - apply (T [Tech.rss_article [("title", PyStr " Budget day "); ("link", PyStr "u1")]]);
      [reflexivity|discriminate|reflexivity].
Defined.

(* ------------------------------------------------------------------ *)
(** * Further properties: classification and the digest *)
(* ------------------------------------------------------------------ *)

Lemma collect_completed_raises {A} (articles : list A) (results : list (outcome bool))
      (order : list nat) (relevant : list A) (i : nat) (e : exn) :
  In i order -> nth_error results i = Some (Raise e) ->
  i < List.length articles ->
  exists e', collect_completed articles results order relevant = Raise e' /\
             In (Raise e') results.
Proof.
  intros Hin Hr Hlt. revert relevant.
  induction order as [|j order IH]; intro relevant; [destruct Hin|].
  simpl.
  destruct (nth_error results j) as [[[|]|e'']|] eqn:Rj;
    destruct (nth_error articles j) as [a|] eqn:Aj.
  all: try (destruct Hin as [->|Hin]; [|now apply IH]).
  all: try (exists e''; split; [reflexivity|eapply nth_error_In; exact Rj]).
  all: try congruence.
  all: try (apply nth_error_None in Aj; lia).
Qed.

Lemma sports_classify_raises_llm_error (w : World) (a : Article) (e : exn) :
  result (Sports.classify_article w a) = Raise e -> e = LLMError.
Proof.
  unfold Sports.classify_article. rewrite result_bind, result_invoke.
  destruct (llm_invoke w (CLASSIFY_PROMPT _ _ _)); [discriminate|].
  intro H. now inversion H.
Qed.

(** One failed classification call aborts the sports agent's relevance
    stage: [f.result()] re-raises the failure of the model call, whatever
    the verdicts of the other articles. *)
Theorem sports_classification_failure_aborts
        (w : World) (ranked : list Article) (a : Article) :
  In a ranked ->
  llm_invoke w (CLASSIFY_PROMPT [Sports.TEAM; Sports.SPORT]
                  (PyStr (title a)) (summary a)) = None ->
  valid_order (List.length ranked) (completion_order w) ->
  result (classify_parallel w (Sports.classify_article w) ranked) = Raise LLMError.
Proof.
  intros Ha L V. rewrite result_classify_parallel.
  apply In_nth_error in Ha. destruct Ha as [i Hi].
  assert (i < List.length ranked) as Hlt
      by (apply nth_error_Some; congruence).
  destruct (collect_completed_raises ranked
              (map (fun x => result (Sports.classify_article w x)) ranked)
              (completion_order w) [] i LLMError) as (e' & -> & He').
  - eapply Permutation_in; [apply Permutation_sym; exact V|].
    apply in_seq. lia.
  - rewrite nth_error_map, Hi. simpl. f_equal.
    unfold Sports.classify_article. rewrite result_bind, result_invoke, L.
    reflexivity.
  - exact Hlt.
  - f_equal. apply in_map_iff in He'. destruct He' as (x & Hx & _).
    now apply sports_classify_raises_llm_error in Hx.
Qed.

Lemma sports_classification_failure_witness :
  result (classify_parallel down_world (Sports.classify_article down_world)
            [undated "u1"]) = Raise LLMError.
Proof.
  apply (sports_classification_failure_aborts down_world [undated "u1"] (undated "u1")).
  - now left.
  - reflexivity.
  - apply Permutation_refl.
Defined.





Lemma sports_summarize_trace (w : World) (l : list Article) :
  In Summarizer (trace (Sports.summarize_articles w l)).
Proof.
  unfold Sports.summarize_articles, invoke, bind, tell, lift, ret, trace.
  destruct (llm_invoke w _); simpl; auto.
Qed.

(** Whatever an agent returns is either the empty dict or a digest with
    between one and [FINAL_ARTICLES] articles, and a populated digest is
    returned only after the summarizer ran. *)
Theorem digests_hold_one_to_five_articles (w : World) :
  (forall t si s arts,
      result (Sports.run_sports_agent w) = Ok (Digest t si s arts) ->
      1 <= List.length arts <= FINAL_ARTICLES /\
      In Summarizer (trace (Sports.run_sports_agent w))) /\
  (forall t si s arts,
      result (Tech.run_tech_agent w) = Ok (Digest t si s arts) ->
      1 <= List.length arts <= FINAL_ARTICLES /\
      In Summarizer (trace (Tech.run_tech_agent w))).
Proof.
  split; intros t si s arts H.
  - unfold Sports.run_sports_agent in *.
    apply bind_ok_inv in H. destruct H as (final & F & H).
    rewrite (trace_bind_ok _ _ _ F).
    destruct final as [|a0 final0]; [discriminate H|].
    apply bind_ok_inv in H. destruct H as (s' & _ & H).
    apply ret_ok_inv in H. inversion H. subst t si s arts. clear H.
    split.
    + unfold Sports.final_articles in F.
      apply bind_ok_inv in F. destruct F as (q & _ & F).
      apply bind_ok_inv in F. destruct F as (n & _ & F).
      apply bind_ok_inv in F. destruct F as (r & _ & F).
      apply bind_ok_inv in F. destruct F as (ranked & _ & F).
      apply bind_ok_inv in F. destruct F as (relevant & _ & F).
      apply ret_ok_inv in F. rewrite F.
      split; [rewrite <- F; simpl; lia|apply firstn_le_length].
    + apply in_or_app. right. rewrite trace_bind.
      destruct (result (Sports.summarize_articles w _)); [apply in_or_app; left|];
        apply sports_summarize_trace.
  - unfold Tech.run_tech_agent in *.
    apply bind_ok_inv in H. destruct H as (combined & C & H).
    rewrite (trace_bind_ok _ _ _ C).
    destruct combined as [|d combined]; [discriminate H|].
    apply bind_ok_inv in H. destruct H as (relevant & R & H).
    rewrite (trace_bind_ok _ _ _ R).
    destruct relevant as [|r relevant]; [discriminate H|].
    apply bind_ok_inv in H. destruct H as (s' & _ & H).
    apply ret_ok_inv in H.
    assert (arts = firstn FINAL_ARTICLES (r :: relevant)) as -> by congruence.
    split.
    + split; [simpl; lia|apply firstn_le_length].
    + apply in_or_app. right. apply in_or_app. right.
      rewrite trace_bind.
      destruct (result (Tech.summarize w _)); [apply in_or_app; left|];
        apply tech_summarize_spec.
Qed.

Lemma digests_witness :
  1 <= List.length [Tech.rss_article [("title", PyStr " Budget day "); ("link", PyStr "u1")]]
    <= FINAL_ARTICLES.
Proof.
  exact (proj1 (proj2 (digests_hold_one_to_five_articles busy_world)
                  "Technology" None "Yes."
                  [Tech.rss_article [("title", PyStr " Budget day "); ("link", PyStr "u1")]]
                  eq_refl)).
Defined.

Lemma concat_all_nil {A B} (f : A -> list B) (l : list A) :
  (forall x, f x = []) -> List.concat (map f l) = [].
Proof.
  intro H. induction l as [|x l IH]; simpl; [reflexivity|]. now rewrite H, IH.
Qed.

Lemma newsapi_down_fetches_nothing (w : World) (queries : json) (n : list Article) :
  (forall q s k, get_everything w q s k = None) ->
  fetch_newsapi_articles w queries = Ok n -> n = [].
Proof.
  intros Down. unfold fetch_newsapi_articles.
  destruct (py_iter queries) as [qs|e]; simpl; [|discriminate].
  rewrite (fold_left_appending _ (newsapi_query_acc w)).
  rewrite concat_all_nil.
  - intro H. now inversion H.
  - intro q. unfold newsapi_query. now rewrite Down.
Qed.

Lemma normalize_each_source (entries : list dict) (out : list Article) :
  normalize_each entries = Ok out -> Forall (fun a => source a = "rss") out.
Proof.
  rewrite normalize_each_spec.
  destruct (existsb untitled entries); [discriminate|].
  intro H. inversion H. apply Forall_forall. intros a Ha.
  apply in_map_iff in Ha. now destruct Ha as (e & <- & _).
Qed.

Lemma rss_fetches_source (w : World) (out : list Article) :
  Finance.fetch_rss_articles w = Ok out \/ Sports.fetch_rss_articles w = Ok out ->
  Forall (fun a => source a = "rss") out.
Proof.
  intros [H|H].
  - unfold Finance.fetch_rss_articles in H. rewrite append_rss_acc in H.
    destruct (normalize_each _) as [ns|] eqn:N; [|discriminate].
    simpl in H. inversion H. subst out. now apply normalize_each_source in N.
  - unfold Sports.fetch_rss_articles in H. rewrite fetch_rss_from_acc in H.
    destruct (normalize_each _) as [ns|] eqn:N; [|discriminate].
    simpl in H. inversion H. subst out. now apply normalize_each_source in N.
Qed.

(** The RSS fetch does not depend on NewsAPI: when every NewsAPI call
    fails, the selection of the finance and of the sports agent is drawn
    from the RSS records alone. *)
Theorem rss_alone_feeds_the_selection_when_newsapi_is_down (w : World) :
  (forall q s k, get_everything w q s k = None) ->
  (forall final, result (Finance.final_articles w) = Ok final ->
     exists rss, Finance.fetch_rss_articles w = Ok rss /\ incl final rss /\
                 Forall (fun a => source a = "rss") final) /\
  (forall final, result (Sports.final_articles w) = Ok final ->
     exists rss, Sports.fetch_rss_articles w = Ok rss /\ incl final rss /\
                 Forall (fun a => source a = "rss") final).
Proof.
  intro Down. split; intros final F.
  - unfold Finance.final_articles in F.
    apply bind_ok_inv in F. destruct F as (q & _ & F).
    apply bind_ok_inv in F. destruct F as (n & N & F).
    apply bind_ok_inv in F. destruct F as (r & R & F).
    apply bind_ok_inv in F. destruct F as (ranked & S & F).
    apply ret_ok_inv in F.
    apply (newsapi_down_fetches_nothing w q n Down) in N. subst n.
    assert (incl final r) as I.
    { rewrite F. intros x Hx. apply firstn_incl in Hx.
      apply (sort_by_recency_incl _ _ _ S) in Hx.
      now apply combine_dedupe_incl in Hx. }
    exists r. split; [exact R|]. split; [exact I|].
    eapply Forall_incl; [exact I|]. apply (rss_fetches_source w). now left.
  - unfold Sports.final_articles in F.
    apply bind_ok_inv in F. destruct F as (q & _ & F).
    apply bind_ok_inv in F. destruct F as (n & N & F).
    apply bind_ok_inv in F. destruct F as (r & R & F).
    apply bind_ok_inv in F. destruct F as (ranked & S & F).
    apply bind_ok_inv in F. destruct F as (relevant & C & F).
    apply ret_ok_inv in F.
    apply (newsapi_down_fetches_nothing w q n Down) in N. subst n.
    assert (incl final r) as I.
    { rewrite F. intros x Hx. apply firstn_incl in Hx.
      apply (classify_parallel_incl _ _ _ _ C) in Hx.
      apply (sort_by_recency_incl _ _ _ S) in Hx.
      now apply combine_dedupe_incl in Hx. }
    exists r. split; [exact R|]. split; [exact I|].
    eapply Forall_incl; [exact I|]. apply (rss_fetches_source w). now right.
Qed.

Lemma rss_alone_witness :
  exists rss, Finance.fetch_rss_articles busy_world = Ok rss /\
              incl [rss_record [("title", PyStr " Budget day "); ("link", PyStr "u1")]
                               " Budget day "] rss.
Proof.
  destruct (proj1 (rss_alone_feeds_the_selection_when_newsapi_is_down busy_world
                     (fun _ _ _ => eq_refl))
              [rss_record [("title", PyStr " Budget day "); ("link", PyStr "u1")]
                          " Budget day "] eq_refl)
    as (rss & R & I & _).
  exists rss. now split.
Defined.

(* ------------------------------------------------------------------ *)
(** * Further properties: the verdict test *)
(* ------------------------------------------------------------------ *)

Ltac by_letter c :=
  split;
  [ destruct c as [[] [] [] [] [] [] [] []];
    vm_compute; first [discriminate | intros _; auto]
  | intros [->| ->]; reflexivity ].

Lemma upper_char_Y (c : ascii) :
  Str.upper_char c = "Y"%char <-> c = "y"%char \/ c = "Y"%char.
Proof. by_letter c. Qed.

Lemma upper_char_E (c : ascii) :
  Str.upper_char c = "E"%char <-> c = "e"%char \/ c = "E"%char.
Proof. by_letter c. Qed.

Lemma upper_char_S (c : ascii) :
  Str.upper_char c = "S"%char <-> c = "s"%char \/ c = "S"%char.
Proof. by_letter c. Qed.

Lemma lstrip_app_space (lead t : string) :
  all_space lead = true -> Str.lstrip (lead ++ t) = Str.lstrip t.
Proof.
  induction lead as [|c lead IH]; simpl; [reflexivity|].
  intro H. apply andb_true_iff in H. destruct H as [-> H]. now apply IH.
Qed.

Lemma prefix_cons (a b : ascii) (p s : string) :
  String.prefix (String a p) (String b s) =
  if Ascii.eqb a b then String.prefix p s else false.
Proof.
  cbn [String.prefix]. destruct (ascii_dec a b) as [->|N].
  - now rewrite Ascii.eqb_refl.
  - apply Ascii.eqb_neq in N. now rewrite N.
Qed.

Lemma prefix_of_empty (a : ascii) (p : string) :
  String.prefix (String a p) EmptyString = false.
Proof. reflexivity. Qed.

Lemma upper_cons (c : ascii) (s : string) :
  Str.upper (String c s) = String (Str.upper_char c) (Str.upper s).
Proof. reflexivity. Qed.

Lemma yes_prefix_inv (t : string) :
  String.prefix "YES" (Str.upper t) = true ->
  exists y e s rest,
    t = String y (String e (String s rest)) /\
    Str.upper_char y = "Y"%char /\ Str.upper_char e = "E"%char /\
    Str.upper_char s = "S"%char.
Proof.
  destruct t as [|y [|e [|s rest]]];
    rewrite ?upper_cons; change (Str.upper EmptyString) with EmptyString;
    rewrite ?prefix_cons, ?prefix_of_empty; intro H.
  - discriminate H.
  - destruct (Ascii.eqb _ _); discriminate H.
  - destruct (Ascii.eqb "Y" _); [|discriminate H].
    destruct (Ascii.eqb "E" _); discriminate H.
  - destruct (Ascii.eqb "Y" (Str.upper_char y)) eqn:Hy; [|discriminate H].
    destruct (Ascii.eqb "E" (Str.upper_char e)) eqn:He; [|discriminate H].
    destruct (Ascii.eqb "S" (Str.upper_char s)) eqn:Hs; [|discriminate H].
    apply Ascii.eqb_eq in Hy, He, Hs.
    exists y, e, s, rest. auto.
Qed.

(** The verdict is positive exactly for the answers whose first three
    characters after the leading whitespace are y, e, s in either case;
    what follows them is not looked at. *)
Theorem verdict_is_positive_iff_answer_starts_with_yes (content : string) :
  Str.startswith (Str.upper (Str.strip content)) "YES" = true <->
  exists lead y e s rest,
    content = (lead ++ String y (String e (String s rest)))%string /\
    all_space lead = true /\
    (y = "y" \/ y = "Y")%char /\ (e = "e" \/ e = "E")%char /\ (s = "s" \/ s = "S")%char.
Proof.
  rewrite verdict_ignores_trailing_space. unfold Str.startswith. split.
  - intro H. destruct (lstrip_decompose content) as (lead & E & W).
    apply yes_prefix_inv in H. destruct H as (y & e & s & rest & T & Hy & He & Hs).
    rewrite T in E.
    exists lead, y, e, s, rest. split; [exact E|]. split; [exact W|].
    apply upper_char_Y in Hy. apply upper_char_E in He. apply upper_char_S in Hs.
    auto.
  - intros (lead & y & e & s & rest & -> & W & Hy & He & Hs).
    rewrite lstrip_app_space by exact W.
    apply upper_char_Y in Hy. apply upper_char_E in He. apply upper_char_S in Hs.
    assert (Str.is_space y = false) as Sy.
    { destruct solid_YES as [H _]. now apply H. }
    cbn [Str.lstrip]. rewrite Sy.
    rewrite !upper_cons, Hy, He, Hs, !prefix_cons. cbn [Ascii.eqb Bool.eqb].
    apply prefix_nil.
Qed.

Example yesterday_counts_as_yes :
  Str.startswith (Str.upper (Str.strip "  Yesterday's match was rained off.")) "YES" = true /\
  Str.startswith (Str.upper (Str.strip "**YES**")) "YES" = false.
Proof. split; reflexivity. Qed.

(* ------------------------------------------------------------------ *)
(** * Further properties: what the regular expressions match *)
(* ------------------------------------------------------------------ *)

Lemma contains_app (c : ascii) (a b : string) :
  contains c (a ++ b) = contains c a || contains c b.
Proof.
  induction a as [|x a IH]; simpl; [reflexivity|].
  now rewrite IH, orb_assoc.
Qed.

Lemma upto_last_none (c : ascii) (s : string) :
  Re.upto_last c s = None <-> contains c s = false.
Proof.
  induction s as [|x s IH]; simpl; [tauto|].
  destruct (Re.upto_last c s) as [r|].
  - split; [discriminate|]. intro H. apply orb_false_iff in H.
    destruct H as [_ H]. apply IH in H. discriminate.
  - destruct (Ascii.eqb x c); simpl; split; try discriminate; try reflexivity.
    intros _. now apply IH.
Qed.

Lemma upto_last_some (c : ascii) (s r : string) :
  Re.upto_last c s = Some r ->
  exists body post,
    r = (body ++ String c "")%string /\ s = (r ++ post)%string /\
    contains c post = false.
Proof.
  revert r. induction s as [|x s IH]; intro r; simpl; [discriminate|].
  destruct (Re.upto_last c s) as [r0|] eqn:U.
  - intro H. inversion H. subst r. clear H.
    destruct (IH r0 eq_refl) as (body & post & -> & E & C).
    exists (String x body), post. simpl. repeat split; [now f_equal|exact C].
  - destruct (Ascii.eqb x c) eqn:X; [|discriminate].
    apply Ascii.eqb_eq in X. subst x.
    intro H. inversion H. subst r. clear H.
    exists "", s. simpl. repeat split. now apply upto_last_none.
Qed.

(** [re.search(r"\[.*\]", s, re.DOTALL)] matches the span from the first
    opening bracket to the last closing bracket of the text, and finds
    nothing exactly when no opening bracket is followed by a closing one. *)
Theorem search_array_spans_first_to_last_bracket (s : string) :
  match Re.search_array s with
  | Some m =>
      exists pre body post,
        s = (pre ++ m ++ post)%string /\
        m = String "["%char (body ++ String "]"%char "")%string /\
        contains "["%char pre = false /\ contains "]"%char post = false
  | None =>
      forall pre rest, s = (pre ++ String "["%char rest)%string ->
                       contains "]"%char rest = false
  end.
Proof.
  induction s as [|x s IH].
  - simpl. intros [|? ?] rest H; discriminate H.
  - cbn [Re.search_array]. unfold Re.delimited_here.
    destruct (Ascii.eqb x "["%char) eqn:X.
    + apply Ascii.eqb_eq in X. subst x.
      destruct (Re.upto_last "]"%char s) as [r|] eqn:U.
      * destruct (upto_last_some _ _ _ U) as (body & post & -> & E & C).
        exists "", body, post. simpl. repeat split; [now f_equal|exact C].
      * apply upto_last_none in U.
        assert (forall pre rest, s = (pre ++ rest)%string ->
                                 contains "]"%char rest = false) as Hsuf.
        { intros pre rest ->. rewrite contains_app in U.
          now apply orb_false_iff in U. }
        destruct (Re.search_array s) as [m|].
        -- destruct IH as (pre & body & post & E & -> & _).
           rewrite E in U. rewrite !contains_app in U. simpl in U.
           rewrite contains_app in U. simpl in U.
           rewrite !orb_true_r in U. discriminate.
        -- intros [|y pre] rest H; simpl in H; inversion H.
           ++ now apply (Hsuf "").
           ++ assert (contains "]"%char (String "["%char rest) = false) as C
                  by now apply (Hsuf pre).
              simpl in C. exact C.
    + destruct (Re.search_array s) as [m|].
      * destruct IH as (pre & body & post & E & -> & Cpre & Cpost).
        exists (String x pre), body, post. simpl. rewrite X, Cpre.
        repeat split; [now f_equal|exact Cpost].
      * intros [|y pre] rest H; simpl in H; inversion H.
        -- subst x. discriminate X.
        -- now apply (IH pre).
Qed.




(* ------------------------------------------------------------------ *)
(** * Further properties: core/news_client.py *)
(* ------------------------------------------------------------------ *)

Lemma filed_by_url_fold (l : list dict) (m : odict dict) :
  filed_by_url m -> filed_by_url (fold_left NewsClient.file_step l m).
Proof.
  revert m. induction l as [|a l IH]; intros m H; simpl; [exact H|].
  apply IH. unfold NewsClient.file_step.
  destruct (truthy (get a "url")) eqn:T; [|exact H].
  apply Forall_forall. intros [k v] Hin.
  apply In_setitem in Hin. destruct Hin as [E|Hin].
  - inversion E. subst. now split.
  - unfold filed_by_url in H. rewrite Forall_forall in H. exact (H _ Hin).
Qed.

Lemma keys_fold_file (l : list dict) (m : odict dict) :
  map fst (fold_left NewsClient.file_step l m) =
  map fst m ++ map url_of (first_wins url_of l (map fst m)).
Proof.
  revert m. induction l as [|a l IH]; intro m; simpl.
  - now rewrite app_nil_r.
  - rewrite IH. unfold NewsClient.file_step, url_of.
    destruct (truthy (get a "url")) eqn:T; simpl; [|reflexivity].
    rewrite keys_setitem.
    destruct (mem (get a "url") (map fst m)) eqn:M; simpl; [reflexivity|].
    rewrite <- app_assoc. simpl. do 3 f_equal.
    apply first_wins_seen_ext. intro x. unfold mem.
    rewrite existsb_app. simpl. rewrite orb_false_r. apply orb_comm.
Qed.

Lemma assoc_fold_file (u : pyval) (l : list dict) (m : odict dict) :
  truthy u = true ->
  assoc u (fold_left NewsClient.file_step l m) =
  match last_with url_of u l with
  | Some a => Some a
  | None => assoc u m
  end.
Proof.
  intro T. revert m. unfold last_with.
  induction l as [|a l IH]; intro m; simpl; [reflexivity|].
  rewrite IH, find_app. simpl.
  destruct (find (fun a0 => pyval_eqb (url_of a0) u) (rev l)); [reflexivity|].
  unfold NewsClient.file_step, url_of.
  destruct (pyval_eqb (get a "url") u) eqn:E.
  - apply pyval_eqb_eq in E. subst u. rewrite T. apply assoc_setitem_same.
  - apply pyval_eqb_neq in E.
    destruct (truthy (get a "url")); [|reflexivity].
    apply assoc_setitem_other. congruence.
Qed.

Lemma first_with_values (u : pyval) (m : odict dict) :
  filed_by_url m -> first_with url_of u (values m) = assoc u m.
Proof.
  unfold first_with, url_of.
  induction 1 as [|[k v] m [Hk _] _ IH]; simpl; [reflexivity|].
  simpl in Hk. rewrite Hk.
  destruct (pyval_eqb k u); [reflexivity|exact IH].
Qed.

Lemma values_urls (m : odict dict) :
  filed_by_url m -> map url_of (values m) = map fst m.
Proof.
  unfold url_of. induction 1 as [|[k v] m [Hk _] _ IH]; simpl; [reflexivity|].
  simpl in Hk. now rewrite Hk, IH.
Qed.

Lemma extend_each_spec (api : NewsClient.client) (queries : list string)
      (page_size : nat) (articles : list dict) :
  NewsClient.extend_each api queries page_size articles =
  match first_uncaught api queries page_size with
  | Some e => Raise e
  | None => Ok (articles ++ List.concat (map (found_by api page_size) queries))
  end.
Proof.
  revert articles. induction queries as [|q queries IH]; intro articles; simpl.
  - now rewrite app_nil_r.
  - unfold NewsClient.fetch_news, found_by.
    destruct (api q "en" page_size) as [found| |e]; simpl; [| |reflexivity];
      rewrite IH; destruct (first_uncaught api queries page_size);
      try reflexivity.
    + now rewrite app_assoc.
    + now rewrite app_nil_r.
Qed.

(** [fetch_multiple_queries] only absorbs [NewsAPIException]: the first
    other exception raised for a query aborts it.  Otherwise it returns
    at most one record per url, none without a usable url, the urls in
    first-seen order across the queries, and under each url the record
    found last. *)
Theorem fetch_multiple_queries_dedupes_by_url
        (api : NewsClient.client) (queries : list string) (page_size : nat) :
  let found := List.concat (map (found_by api page_size) queries) in
  (forall e, first_uncaught api queries page_size = Some e ->
             NewsClient.fetch_multiple_queries api queries page_size = Raise e) /\
  (first_uncaught api queries page_size = None ->
   exists out,
     NewsClient.fetch_multiple_queries api queries page_size = Ok out /\
     NoDup (map url_of out) /\
     Forall (fun a => usable_url (url_of a)) out /\
     map url_of out = map url_of (first_wins url_of found []) /\
     forall u, first_with url_of u out =
               if truthy u then last_with url_of u found else None).
Proof.
  intro found. unfold NewsClient.fetch_multiple_queries.
  rewrite extend_each_spec. split.
  - intros e ->. reflexivity.
  - intros ->. cbn [obind app]. fold found.
    assert (filed_by_url (fold_left NewsClient.file_step found [])) as F
        by (apply filed_by_url_fold; constructor).
    assert (map url_of (values (fold_left NewsClient.file_step found [])) =
            map url_of (first_wins url_of found [])) as U
        by (rewrite (values_urls _ F), keys_fold_file; reflexivity).
    eexists. split; [reflexivity|]. split; [|split; [|split]].
    + rewrite U. apply first_wins_NoDup.
    + assert (Forall (fun k => usable_url k)
                     (map url_of (values (fold_left NewsClient.file_step found [])))) as Hk.
      { rewrite U. apply Forall_forall. intros k Hk.
        apply in_map_iff in Hk. destruct Hk as (a & <- & Ha).
        apply (first_wins_In url_of) in Ha. now apply truthy_usable. }
      rewrite Forall_forall in *. intros a Ha. apply Hk. now apply in_map.
    + exact U.
    + intro u. rewrite (first_with_values u _ F).
      destruct (truthy u) eqn:T.
      * rewrite (assoc_fold_file u found [] T). simpl.
        now destruct (last_with url_of u found).
      * destruct (assoc u _) as [a|] eqn:A; [|reflexivity].
        rewrite <- (first_with_values u _ F) in A.
        unfold first_with in A. apply find_some in A. destruct A as [Hin E].
        apply pyval_eqb_eq in E.
        assert (In u (map url_of (values (fold_left NewsClient.file_step found []))))
          as Hu by (rewrite <- E; now apply in_map).
        rewrite U in Hu. apply in_map_iff in Hu. destruct Hu as (b & Eb & Hb).
        apply (first_wins_In url_of) in Hb. destruct Hb as (_ & Tb & _).
        congruence.
Qed.

Lemma fetch_multiple_queries_witness :
  NewsClient.fetch_multiple_queries sample_client ["ai"; "quota"; "nothing"] 10
    = Raise TypeError /\
  exists out,
    NewsClient.fetch_multiple_queries sample_client ["ai"; "quota"; "chips"] 10 = Ok out /\
    NoDup (map url_of out).
Proof.
  split.
  - apply (proj1 (fetch_multiple_queries_dedupes_by_url sample_client
                    ["ai"; "quota"; "nothing"] 10)).
    reflexivity.
  - destruct (proj2 (fetch_multiple_queries_dedupes_by_url sample_client
                       ["ai"; "quota"; "chips"] 10) eq_refl)
      as (out & E & N & _).
    exists out. now split.
Defined.

Example fetch_multiple_queries_example :
  NewsClient.fetch_multiple_queries sample_client ["ai"; "quota"; "chips"] 10
  = Ok [[("url", PyStr "u1"); ("title", PyStr "new")]; [("url", PyStr "u2")]].
Proof. reflexivity. Qed.

(* ------------------------------------------------------------------ *)
(** * Further properties: distinct urls after classification *)
(* ------------------------------------------------------------------ *)

Section DistinctAfterFilter.
Context {A : Type} (key : A -> pyval).



End DistinctAfterFilter.



(* ------------------------------------------------------------------ *)
(** * Further properties: the feed list of the sports agent *)
(* ------------------------------------------------------------------ *)

Lemma lower_upper_char (c : ascii) :
  Str.lower_char (Str.upper_char c) = Str.lower_char c.
Proof. destruct c as [[] [] [] [] [] [] [] []]; reflexivity. Qed.

Lemma lower_lower_char (c : ascii) :
  Str.lower_char (Str.lower_char c) = Str.lower_char c.
Proof. destruct c as [[] [] [] [] [] [] [] []]; reflexivity. Qed.

Lemma lower_upper (s : string) : Str.lower (Str.upper s) = Str.lower s.
Proof.
  induction s as [|c s IH]; [reflexivity|].
  change (String (Str.lower_char (Str.upper_char c)) (Str.lower (Str.upper s))
          = String (Str.lower_char c) (Str.lower s)).
  now rewrite lower_upper_char, IH.
Qed.

Lemma lower_lower (s : string) : Str.lower (Str.lower s) = Str.lower s.
Proof.
  induction s as [|c s IH]; [reflexivity|].
  change (String (Str.lower_char (Str.lower_char c)) (Str.lower (Str.lower s))
          = String (Str.lower_char c) (Str.lower s)).
  now rewrite lower_lower_char, IH.
Qed.

(** The feed list of the sports agent depends on the configured sport up
    to letter case only, and a sport that is neither cricket nor football
    has no feed, so that its RSS fetch returns no record. *)
Theorem rss_feeds_ignore_the_case_of_the_sport (w : World) (sport : string) :
  Sports.get_rss_feeds_for (Str.upper sport) = Sports.get_rss_feeds_for sport /\
  Sports.get_rss_feeds_for (Str.lower sport) = Sports.get_rss_feeds_for sport /\
  (Str.lower sport <> "cricket" -> Str.lower sport <> "football" ->
   Sports.fetch_rss_from w (Sports.get_rss_feeds_for sport) [] = Ok []).
Proof.
  unfold Sports.get_rss_feeds_for. rewrite lower_upper, lower_lower.
  split; [reflexivity|]. split; [reflexivity|].
  intros H1 H2. apply String.eqb_neq in H1, H2. now rewrite H1, H2.
Qed.

Lemma rss_feeds_witness :
  Sports.fetch_rss_from busy_world (Sports.get_rss_feeds_for "Hockey") [] = Ok [].
Proof.
  apply (proj2 (proj2 (rss_feeds_ignore_the_case_of_the_sport busy_world "Hockey")));
    discriminate.
Defined.

Lemma normalize_article_witness :
  Str.strip "Budget day" = "Budget day".
Proof.
  exact (proj1 (proj2 (proj2 (normalize_article_trims_title
                                [("title", PyStr "  Budget day "); ("url", PyStr "u1")]
                                "newsapi"))
                 {| title := "Budget day"; summary := PyStr ""; url := PyStr "u1";
                    published := PyNone; source := "newsapi" |}
                 eq_refl)).
Defined.
